(** * server.js: authentication, owned resources and event registration

    A shallow embedding of the Express application of [src/server.js].

    Every route handler is an [async] function: it runs without interruption
    between two [await]s, and every [await] of a Mongoose call is one round
    trip to the database.  A handler is therefore embedded as a finite tree
    of store calls ([prog]): a node is one awaited call with the
    continuation that receives its answer, a leaf is the response sent (or
    the call of [next()]).  The same tree is given three readings:
    [run] executes one handler to completion, [run_seq] executes requests
    one after the other, and [exec] interleaves several pending requests at
    their [await]s, as the event loop of the server does. *)

From Stdlib Require Import ZArith String List Lia Bool Ascii.
From stdpp Require Import base option list gmap strings.
Import ListNotations.

Local Open Scope string_scope.
Local Open Scope Z_scope.

(** ** Values exchanged with the libraries *)

(** A field of a JSON request body ([express.json()]); a field that is
    absent reads as [undefined].  Of the numbers of JSON only the integers
    are kept: a seat count with a fractional part is not a value of this
    development. *)
#[local] Unset Elimination Schemes.
Inductive json :=
| JUndefined
| JNull
| JBool (b : bool)
| JNum (n : Z)
| JStr (s : string)
| JArray (items : list json)
| JObject (members : list (string * json)).
#[local] Set Elimination Schemes.

(** An ObjectId, by its hexadecimal text. *)
Abbreviation ObjectId := string (only parsing).

(** What server.js calls in bson, mongoose and bcryptjs.  The code of these
    packages is not part of the repository, which names no version of
    them: their functions are taken as parameters, with no assumption.
    [None] stands for a thrown exception (a rejected promise for
    [bcrypt_compare]). *)
Class Library := {
  (** [mongoose.Types.ObjectId.isValid(v)] *)
  ObjectId_isValid : json → bool;
  (** [mongoose.Types.ObjectId(v)], called without [new] as at line 363.
      Where the constructor is a function (mongoose 6 and earlier) the
      call builds the ObjectId of a valid value; where it is a class
      (mongoose 7 and later) the call throws for every value. *)
  ObjectId_new : json → option ObjectId;
  (** the cast of a value into an [ObjectId] schema path (a query on [_id],
      an element pushed on [registrations]) *)
  castObjectId : json → option ObjectId;
  (** the cast of a value into a [String] schema path *)
  castString : json → option string;
  (** the cast of a value into a [Number] schema path *)
  castNumber : json → option Z;
  (** the meaning, on a [String] path of a query filter, of an object of
      query operators such as [{ "$gt": "" }]: the stored strings that
      satisfy it *)
  query_String : json → option (string → bool);
  (** [bcrypt.compare(candidate, hash)] *)
  bcrypt_compare : json → string → option bool
}.

(** ** Documents (lines 68-85 and 389-406)

    Of a user and of a blog, the paths that the handlers below set or
    read.  Of an event, every path of [eventSchema], and the version key
    [__v] that mongoose keeps with every document.  The [date] of an event
    is kept as the text of the request; [createdAt] is the reading of the
    clock when the document was built.  [availableSeats] is an integer: a
    JavaScript number computes as the integers do on the safe integers
    ([isSafeInteger], below). *)

Record User := {
  u_id : ObjectId;
  u_name : string;
  u_email : string;
  u_number : string;
  u_password : string
}.

Record Blog := {
  b_id : ObjectId;
  b_title : string;
  b_content : string;
  b_image : option string;
  b_author : option ObjectId
}.

Record Event := {
  e_id : ObjectId;
  title : string;
  description : string;
  category : string;
  date : string;
  time : string;
  location : string;
  imageUrl : option string;
  availableSeats : Z;
  registrations : list ObjectId;
  createdAt : Z;
  __v : Z
}.

(** The three collections the handlers below use. *)
Record Store := {
  users : list User;
  blogs : gmap string Blog;
  events : gmap string Event
}.

Definition set_events (s : Store) (m : gmap string Event) : Store :=
  {| users := users s; blogs := blogs s; events := m |}.

Definition set_blogs (s : Store) (m : gmap string Blog) : Store :=
  {| users := users s; blogs := m; events := events s |}.

(** ** Session tokens (jsonwebtoken) *)

(** The claims of a token: the payload [{ userId }] with the [iat] and
    [exp] that [jwt.sign] adds.  Both are NumericDates, whole seconds.
    [userId] is a text, as in every token that the login signs (the
    ObjectId of the user, which JSON writes as its hexadecimal text); it
    need not be the text of an ObjectId in a token signed elsewhere. *)
Record claims := {
  c_userId : ObjectId;
  iat : Z;
  exp : option Z
}.

(** A signature is kept symbolic: the key and the claims it was computed
    from.  A token signed with another key, or whose claims were altered
    after signing, carries a signature that does not match. *)
Inductive signature :=
| HS256 (key : string) (c : claims).

(** One space-separated piece of the [Authorization] header: plain text, or
    the compact serialisation of a token. *)
Inductive word :=
| Text (s : string)
| Jwt (c : claims) (sig : signature).

#[global] Instance claims_eq_dec : EqDecision claims.
Proof. solve_decision. Defined.

#[global] Instance signature_eq_dec : EqDecision signature.
Proof. solve_decision. Defined.

Inductive jwt_error :=
| JsonWebTokenError (message : string)
| TokenExpiredError.

(** [expiresIn: "1h"], in seconds. *)
Definition one_hour : Z := 3600.

(** [jwt.sign({ userId }, key, { expiresIn: "1h" })] at clock reading [now]. *)
Definition jwt_sign (userId : ObjectId) (key : string) (now : Z) : word :=
  let c := {| c_userId := userId; iat := now; exp := Some (now + one_hour) |} in
  Jwt c (HS256 key c).

(** [jwt.verify(token, key)] at clock reading [now]: the token is decoded,
    its signature checked, then its expiry. *)
Definition jwt_verify (token : word) (key : string) (now : Z) : claims + jwt_error :=
  match token with
  | Text _ => inr (JsonWebTokenError "jwt malformed")
  | Jwt c sig =>
      if decide (sig = HS256 key c) then
        match exp c with
        | Some e => if e <=? now then inr TokenExpiredError else inl c
        | None => inl c
        end
      else inr (JsonWebTokenError "invalid signature")
  end.

(** ** Requests and responses *)

Record request := {
  (** [req.params.id] *)
  params_id : string;
  (** [req.headers.authorization], split at spaces; the empty header is
      [[Text ""]] *)
  authorization : option (list word);
  (** [req.body] *)
  body : gmap string json;
  (** [req.userId], set by [authenticate] *)
  userId : option ObjectId;
  (** the clock (seconds) when the request is handled *)
  clock : Z;
  (** the [_id] given to a document built while the request is handled *)
  fresh_id : ObjectId
}.

Definition field (req : request) (name : string) : json :=
  default JUndefined (body req !! name).

Definition set_userId (req : request) (u : ObjectId) : request :=
  {| params_id := params_id req; authorization := authorization req;
     body := body req; userId := Some u; clock := clock req;
     fresh_id := fresh_id req |}.

(** The argument of [res.json]. *)
Inductive reply :=
| Message (message : string)
| MessageEvent (message : string) (event : Event)
| MessageToken (message : string) (token : word)
| Page (text : string).

Record response := {
  status : Z;
  sent : reply
}.

(** How a handler ends: it has answered, or it has called [next()]. *)
Inductive outcome :=
| Responded (r : response)
| CalledNext (req : request).

(** ** Handlers as trees of store calls *)

Inductive thrown :=
| CastError
| ValidationError
| DocumentNotFoundError
| DuplicateKeyError.

(** An awaited promise: fulfilled with a value, or rejected. *)
Inductive awaited (A : Type) :=
| Fulfilled (a : A)
| Rejected (e : thrown).
Arguments Fulfilled {A} a.
Arguments Rejected {A} e.

Inductive prog :=
| Done (o : outcome)
| User_findOne (email : json) (k : awaited (option User) → prog)
| Blog_findOneAndDelete (id : string) (author : option ObjectId)
    (k : awaited (option Blog) → prog)
| Event_findById (id : string) (k : awaited (option Event) → prog)
| Event_save (doc : Event) (pushed : list ObjectId) (k : awaited unit → prog)
| Event_insert (doc : Event) (k : awaited unit → prog).

(** A store call, as it appears in the log of the calls a handler made. *)
Inductive store_call :=
| Call_User_findOne (email : json)
| Call_Blog_findOneAndDelete (id : string) (author : option ObjectId)
| Call_Event_findById (id : string)
| Call_Event_save (doc : Event) (pushed : list ObjectId)
| Call_Event_insert (doc : Event).

Definition respond (code : Z) (r : reply) : prog :=
  Done (Responded {| status := code; sent := r |}).

Definition is_read (c : store_call) : bool :=
  match c with
  | Call_User_findOne _ | Call_Event_findById _ => true
  | _ => false
  end.

Definition is_write (c : store_call) : bool :=
  match c with
  | Call_Event_save _ _ | Call_Event_insert _
  | Call_Blog_findOneAndDelete _ _ => true
  | _ => false
  end.

Section Server.

Context `{Library}.

(** [process.env.JWT_SECRET] *)
Variable JWT_SECRET : option string.

(** Line 12: [process.env.JWT_SECRET || "your-secret-key"]. *)
Definition SECRET_KEY : string :=
  match JWT_SECRET with
  | Some k => if decide (k = "") then "your-secret-key" else k
  | None => "your-secret-key"
  end.

(** ** The store calls *)

(** The validators of [eventSchema] that a document can fail when it is
    saved: [availableSeats: { min: 0 }] (line 401).  The other paths of a
    stored event are as [new_Event] built them, past their validators: no
    handler assigns them. *)
Definition validate (doc : Event) : bool := 0 <=? availableSeats doc.

(** [User.findOne({ email })]: the first user whose email is the value of
    the filter, cast to a string.  A value that is not cast to a string is,
    when it is an object, a document of query operators, and the first
    user whose email satisfies it is found; when it is an array, it stands
    for [{ $in: array }], and the first user whose email is one of its
    elements, cast to strings, is found.  Any other value makes the call
    fail; no user has an absent email. *)
Definition do_User_findOne (email : json) (s : Store) : awaited (option User) :=
  match email with
  | JUndefined | JNull => Fulfilled None
  | _ =>
      match castString email with
      | Some a => Fulfilled (List.find (λ u, String.eqb (u_email u) a) (users s))
      | None =>
          match email with
          | JObject _ =>
              match query_String email with
              | Some satisfies =>
                  Fulfilled (List.find (λ u, satisfies (u_email u)) (users s))
              | None => Rejected CastError
              end
          | JArray items =>
              match mapM castString items with
              | Some among =>
                  Fulfilled (List.find (λ u, bool_decide (u_email u ∈ among)) (users s))
              | None => Rejected CastError
              end
          | _ => Rejected CastError
          end
      end
  end.

(** [Blog.findOneAndDelete({ _id: id, author })]: one call, which removes
    the document that satisfies both conditions and returns it.  Both
    values of the filter are cast to the [ObjectId] of their path (lines
    82 and 283); a value that cannot be cast makes the call fail. *)
Definition do_Blog_findOneAndDelete (id : string) (author : option ObjectId)
    (s : Store) : Store * awaited (option Blog) :=
  match castObjectId (JStr id) with
  | None => (s, Rejected CastError)
  | Some oid =>
      match match author with
            | Some u => Some <$> castObjectId (JStr u)
            | None => Some None
            end with
      | None => (s, Rejected CastError)
      | Some owner =>
          match blogs s !! oid with
          | Some b =>
              if decide (b_author b = owner)
              then (set_blogs s (delete oid (blogs s)), Fulfilled (Some b))
              else (s, Fulfilled None)
          | None => (s, Fulfilled None)
          end
      end
  end.

(** [Event.findById(id)] *)
Definition do_Event_findById (id : string) (s : Store) : awaited (option Event) :=
  match castObjectId (JStr id) with
  | None => Rejected CastError
  | Some oid => Fulfilled (events s !! oid)
  end.

(** What [save] writes for a document that was loaded, had
    [availableSeats] assigned and [pushed] pushed on [registrations]: the
    update [{ $set: { availableSeats }, $push: { registrations } }] on the
    stored document of that [_id], with [{ $inc: { __v: 1 } }] when
    something was pushed. *)
Definition saved (doc : Event) (pushed : list ObjectId) (cur : Event) : Event :=
  {| e_id := e_id cur; title := title cur; description := description cur;
     category := category cur; date := date cur; time := time cur;
     location := location cur; imageUrl := imageUrl cur;
     availableSeats := availableSeats doc;
     registrations := registrations cur ++ pushed;
     createdAt := createdAt cur;
     __v := match pushed with [] => __v cur | _ => __v cur + 1 end |}.

(** The document in memory once [save] has written a push: mongoose has
    incremented its version key. *)
Definition after_save (doc : Event) : Event :=
  {| e_id := e_id doc; title := title doc; description := description doc;
     category := category doc; date := date doc; time := time doc;
     location := location doc; imageUrl := imageUrl doc;
     availableSeats := availableSeats doc;
     registrations := registrations doc;
     createdAt := createdAt doc;
     __v := __v doc + 1 |}.

(** [event.save()] on a loaded document: validation, then the update. *)
Definition do_Event_save (doc : Event) (pushed : list ObjectId) (s : Store)
    : Store * awaited unit :=
  if validate doc then
    match events s !! e_id doc with
    | Some cur =>
        (set_events s (<[e_id doc := saved doc pushed cur]> (events s)),
         Fulfilled ())
    | None => (s, Rejected DocumentNotFoundError)
    end
  else (s, Rejected ValidationError).

(** [newEvent.save()] on a new document: validation, then the insertion. *)
Definition do_Event_insert (doc : Event) (s : Store) : Store * awaited unit :=
  if validate doc then
    match events s !! e_id doc with
    | Some _ => (s, Rejected DuplicateKeyError)
    | None => (set_events s (<[e_id doc := doc]> (events s)), Fulfilled ())
    end
  else (s, Rejected ValidationError).

(** ** Three ways to execute a handler *)

(** One store call of a pending handler: the handler runs up to its next
    [await] (or to its end). *)
Definition step (p : prog) (s : Store) : Store * prog :=
  match p with
  | Done o => (s, p)
  | User_findOne email k => (s, k (do_User_findOne email s))
  | Blog_findOneAndDelete id author k =>
      let '(s', a) := do_Blog_findOneAndDelete id author s in (s', k a)
  | Event_findById id k => (s, k (do_Event_findById id s))
  | Event_save doc pushed k =>
      let '(s', a) := do_Event_save doc pushed s in (s', k a)
  | Event_insert doc k =>
      let '(s', a) := do_Event_insert doc s in (s', k a)
  end.

(** The call a pending handler is about to make. *)
Definition next_call (p : prog) : option store_call :=
  match p with
  | Done _ => None
  | User_findOne email _ => Some (Call_User_findOne email)
  | Blog_findOneAndDelete id author _ => Some (Call_Blog_findOneAndDelete id author)
  | Event_findById id _ => Some (Call_Event_findById id)
  | Event_save doc pushed _ => Some (Call_Event_save doc pushed)
  | Event_insert doc _ => Some (Call_Event_insert doc)
  end.

(** A handler run to its end with no other request in between: the final
    store, the calls made, and how it ended. *)
Fixpoint run (p : prog) (s : Store) : Store * list store_call * outcome :=
  match p with
  | Done o => (s, [], o)
  | User_findOne email k =>
      let '(s', cs, o) := run (k (do_User_findOne email s)) s in
      (s', Call_User_findOne email :: cs, o)
  | Blog_findOneAndDelete id author k =>
      let '(s1, a) := do_Blog_findOneAndDelete id author s in
      let '(s', cs, o) := run (k a) s1 in
      (s', Call_Blog_findOneAndDelete id author :: cs, o)
  | Event_findById id k =>
      let '(s', cs, o) := run (k (do_Event_findById id s)) s in
      (s', Call_Event_findById id :: cs, o)
  | Event_save doc pushed k =>
      let '(s1, a) := do_Event_save doc pushed s in
      let '(s', cs, o) := run (k a) s1 in
      (s', Call_Event_save doc pushed :: cs, o)
  | Event_insert doc k =>
      let '(s1, a) := do_Event_insert doc s in
      let '(s', cs, o) := run (k a) s1 in
      (s', Call_Event_insert doc :: cs, o)
  end.

Definition final_store (x : Store * list store_call * outcome) : Store := x.1.1.
Definition calls (x : Store * list store_call * outcome) : list store_call := x.1.2.
Definition result (x : Store * list store_call * outcome) : outcome := x.2.

(** Requests served one after the other. *)
Fixpoint run_seq (ps : list prog) (s : Store) : Store * list outcome :=
  match ps with
  | [] => (s, [])
  | p :: ps' =>
      let x := run p s in
      let '(s', os) := run_seq ps' (final_store x) in
      (s', result x :: os)
  end.

(** Requests in flight together: the store and the pending handlers.  A
    schedule names, step after step, the handler whose awaited call is
    served next. *)
Definition step_at (i : nat) (c : Store * list prog) : Store * list prog :=
  match c.2 !! i with
  | Some p => let '(s', p') := step p c.1 in (s', <[i := p']> c.2)
  | None => c
  end.

Definition exec (schedule : list nat) (c : Store * list prog) : Store * list prog :=
  fold_left (λ c i, step_at i c) schedule c.

(** ** Middleware and routing *)

(** A route's stack of handlers: the next one runs when the previous one
    called [next()]. *)
Fixpoint and_then (p : prog) (rest : request → prog) : prog :=
  match p with
  | Done (Responded _) => p
  | Done (CalledNext req) => rest req
  | User_findOne email k => User_findOne email (λ a, and_then (k a) rest)
  | Blog_findOneAndDelete id author k =>
      Blog_findOneAndDelete id author (λ a, and_then (k a) rest)
  | Event_findById id k => Event_findById id (λ a, and_then (k a) rest)
  | Event_save doc pushed k => Event_save doc pushed (λ a, and_then (k a) rest)
  | Event_insert doc k => Event_insert doc (λ a, and_then (k a) rest)
  end.

(** Express's answer when no handler is left. *)
Definition not_handled : prog := respond 404 (Page "Not Found").

Fixpoint dispatch (stack : list (request → prog)) (req : request) : prog :=
  match stack with
  | [] => not_handled
  | h :: stack' => and_then (h req) (dispatch stack')
  end.

(** Lines 109-123. *)
Definition authenticate (req : request) : prog :=
  match authorization req with
  | None | Some [] | Some [Text ""] =>
      respond 401 (Message "Authentication required")
  | Some authHeader =>
      match authHeader !! 1%nat with
      | None | Some (Text "") => respond 401 (Message "Authentication required")
      | Some token =>
          match jwt_verify token SECRET_KEY (clock req) with
          | inl decoded => Done (CalledNext (set_userId req (c_userId decoded)))
          | inr err => respond 401 (Message "Invalid token")
          end
      end
  end.

(** Lines 182-203: [POST /api/login]. *)
Definition login (req : request) : prog :=
  User_findOne (field req "email") (λ a,
    match a with
    | Rejected _ => respond 500 (Message "Server error during login")
    | Fulfilled None => respond 401 (Message "Invalid email or password")
    | Fulfilled (Some user) =>
        match bcrypt_compare (field req "password") (u_password user) with
        | None => respond 500 (Message "Server error during login")
        | Some false => respond 401 (Message "Invalid email or password")
        | Some true =>
            let token := jwt_sign (u_id user) SECRET_KEY (clock req) in
            respond 200 (MessageToken "Login successful" token)
        end
    end).

(** Lines 279-291: [DELETE /api/blogs/:id], behind [authenticate]. *)
Definition delete_blog (req : request) : prog :=
  Blog_findOneAndDelete (params_id req) (userId req) (λ a,
    match a with
    | Rejected _ => respond 500 (Message "Server error")
    | Fulfilled None => respond 404 (Message "Blog not found")
    | Fulfilled (Some blog) => respond 200 (Message "Blog deleted")
    end).

(** ** Events *)

(** [event.registrations.push(oid)] on a loaded document. *)
Definition push_registration (event : Event) (oid : ObjectId) : Event :=
  {| e_id := e_id event; title := title event; description := description event;
     category := category event; date := date event; time := time event;
     location := location event; imageUrl := imageUrl event;
     availableSeats := availableSeats event;
     registrations := registrations event ++ [oid];
     createdAt := createdAt event; __v := __v event |}.

(** [event.availableSeats = n] on a loaded document. *)
Definition set_availableSeats (event : Event) (n : Z) : Event :=
  {| e_id := e_id event; title := title event; description := description event;
     category := category event; date := date event; time := time event;
     location := location event; imageUrl := imageUrl event;
     availableSeats := n;
     registrations := registrations event;
     createdAt := createdAt event; __v := __v event |}.

(** Lines 346-373: the first [POST /api/events/:id/register]. *)
Definition register_first (req : request) : prog :=
  Event_findById (params_id req) (λ a,
    match a with
    | Rejected _ => respond 500 (Message "Error registering for event")
    | Fulfilled None => respond 404 (Message "Event not found")
    | Fulfilled (Some event) =>
        if availableSeats event <=? 0 then
          respond 400 (Message "No available seats")
        else if negb (ObjectId_isValid (field req "userId")) then
          respond 400 (Message "Invalid userId")
        else
          match ObjectId_new (field req "userId") with
          | None => respond 500 (Message "Error registering for event")
          | Some oid =>
              let event1 := push_registration event oid in
              let event2 := set_availableSeats event1 (availableSeats event1 - 1) in
              Event_save event2 [oid] (λ b,
                match b with
                | Rejected _ => respond 500 (Message "Error registering for event")
                | Fulfilled _ =>
                    respond 200
                      (MessageEvent "Registration successful" (after_save event2))
                end)
          end
    end).

(** Lines 453-474: the second [POST /api/events/:id/register].  The pushed
    value is cast by the [registrations] array (line 402); a value that
    cannot be cast makes [push] throw.  What the array does with an absent
    or [null] value is left to [castObjectId]: [registrations] holds
    ObjectIds only. *)
Definition register_second (req : request) : prog :=
  Event_findById (params_id req) (λ a,
    match a with
    | Rejected _ => respond 500 (Message "Error registering for event")
    | Fulfilled None => respond 404 (Message "Event not found")
    | Fulfilled (Some event) =>
        if availableSeats event <=? 0 then
          respond 400 (Message "No available seats")
        else
          let event1 := set_availableSeats event (availableSeats event - 1) in
          match castObjectId (field req "userId") with
          | None => respond 500 (Message "Error registering for event")
          | Some oid =>
              let event2 := push_registration event1 oid in
              Event_save event2 [oid] (λ b,
                match b with
                | Rejected _ => respond 500 (Message "Error registering for event")
                | Fulfilled _ =>
                    respond 200
                      (MessageEvent "Registration successful" (after_save event2))
                end)
          end
    end).

(** A [required] String path: absent, [null] and the empty string fail. *)
Definition required (v : json) : option string :=
  match v with
  | JUndefined | JNull => None
  | _ =>
      match castString v with
      | Some s => if decide (s = "") then None else Some s
      | None => None
      end
  end.

(** A String path that is not required. *)
Definition optional (v : json) : option (option string) :=
  match v with
  | JUndefined | JNull => Some None
  | _ => Some <$> castString v
  end.

(** Line 395. *)
Definition categories : list string :=
  ["workshop"; "seminar"; "conference"; "social"].

(** [new Event({ title, ..., availableSeats })] (lines 422-431): the
    document, or [None] when a path fails its cast, [required] or [enum];
    [registrations] starts empty, [createdAt] takes its default, the
    reading of the clock, and the version key is the 0 that the first
    [save] gives it. *)
Definition new_Event (req : request) : option Event :=
  t ← required (field req "title");
  d ← required (field req "description");
  c ← required (field req "category");
  _ ← guard (c ∈ categories);
  da ← required (field req "date");
  ti ← required (field req "time");
  l ← required (field req "location");
  i ← optional (field req "imageUrl");
  n ← match field req "availableSeats" with
      | JUndefined | JNull => None
      | v => castNumber v
      end;
  Some {| e_id := fresh_id req; title := t; description := d; category := c;
          date := da; time := ti; location := l; imageUrl := i;
          availableSeats := n; registrations := [];
          createdAt := clock req; __v := 0 |}.

(** Lines 409-440: [POST /api/events]. *)
Definition create_event (req : request) : prog :=
  match new_Event req with
  | None => respond 500 (Message "Error creating event")
  | Some newEvent =>
      Event_insert newEvent (λ a,
        match a with
        | Rejected _ => respond 500 (Message "Error creating event")
        | Fulfilled _ =>
            respond 201 (MessageEvent "Event created successfully" newEvent)
        end)
  end.

(** ** The application *)

Inductive route :=
| POST_login
| DELETE_blogs_id
| POST_events_id_register
| POST_events.

#[global] Instance route_eq_dec : EqDecision route.
Proof. solve_decision. Defined.

(** The routes of this development, in the order server.js adds them. *)
Definition app : list (route * list (request → prog)) :=
  [ (POST_login, [login]);
    (DELETE_blogs_id, [authenticate; delete_blog]);
    (POST_events_id_register, [register_first]);
    (POST_events, [create_event]);
    (POST_events_id_register, [register_second]) ].

(** The handlers Express tries for a request, in order. *)
Definition stack_of (rt : route) : list (request → prog) :=
  concat (map snd (filter (λ e, e.1 = rt) app)).

Definition handle (rt : route) (req : request) : prog :=
  dispatch (stack_of rt) req.

(** ** Observations *)

(** A registration the client was told succeeded. *)
Definition registered (p : prog) : bool :=
  match p with
  | Done (Responded {| status := 200; sent := MessageEvent _ _ |}) => true
  | _ => false
  end.

Definition registered_outcome (o : outcome) : bool := registered (Done o).

(** The number of successful registrations among requests in flight. *)
Definition successes (pool : list prog) : nat :=
  length (filter (λ p, registered p = true) pool).

Definition seats_of (s : Store) (id : ObjectId) : option Z :=
  availableSeats <$> events s !! id.

(** No stored event has a negative seat count. *)
Definition seats_nonneg (s : Store) : Prop :=
  map_Forall (λ _ e, 0 <= availableSeats e) (events s).

(** The key of a stored event is the [_id] of the document. *)
Definition store_wf (s : Store) : Prop :=
  map_Forall (λ id e, e_id e = id) (events s).

(** A handler that always answers: no path of it calls [next()]. *)
Fixpoint answers (p : prog) : Prop :=
  match p with
  | Done (Responded _) => True
  | Done (CalledNext _) => False
  | User_findOne _ k => ∀ a, answers (k a)
  | Blog_findOneAndDelete _ _ k => ∀ a, answers (k a)
  | Event_findById _ k => ∀ a, answers (k a)
  | Event_save _ _ k => ∀ a, answers (k a)
  | Event_insert _ k => ∀ a, answers (k a)
  end.

Definition status_of (o : outcome) : option Z :=
  match o with
  | Responded r => Some (status r)
  | CalledNext _ => None
  end.

(** The document a successful registration answers with. *)
Definition registered_event (o : outcome) : option Event :=
  match o with
  | Responded {| status := 200; sent := MessageEvent _ event |} => Some event
  | _ => None
  end.

(** The number of successful registrations for event [id] among answers. *)
Definition successes_on (id : ObjectId) (os : list outcome) : nat :=
  length (filter (λ o, e_id <$> registered_event o = Some id) os).

(** The loaded document [event] after lines 363-364: [oid] pushed, one
    seat less. *)
Definition booked (event : Event) (oid : ObjectId) : Event :=
  set_availableSeats (push_registration event oid)
    (availableSeats (push_registration event oid) - 1).

End Server.

(** ** One instance of the libraries

    Identifiers are the strings of 24 hexadecimal digits, only strings are
    cast to strings, only numbers to numbers, and a password hash is the
    password behind a fixed prefix. *)

Definition is_hex (a : ascii) : bool :=
  let n := nat_of_ascii a in
  ((48 <=? n)%nat && (n <=? 57)%nat) || ((97 <=? n)%nat && (n <=? 102)%nat)
  || ((65 <=? n)%nat && (n <=? 70)%nat).

Definition hex24 (s : string) : bool :=
  (String.length s =? 24)%nat && forallb is_hex (list_ascii_of_string s).

Definition hex_id (v : json) : option ObjectId :=
  match v with
  | JStr s => if hex24 s then Some s else None
  | _ => None
  end.

Definition toy_hash (password : string) : string := "$2a$10$" ++ password.

(** The operators [$gt] and [$ne] on a string. *)
Definition string_query (v : json) : option (string → bool) :=
  match v with
  | JObject [("$gt", JStr a)] => Some (λ stored, String.ltb a stored)
  | JObject [("$ne", JStr a)] => Some (λ stored, negb (String.eqb a stored))
  | _ => None
  end.

Definition toy_compare (v : json) (h : string) : option bool :=
  match v with
  | JStr p => Some (String.eqb (toy_hash p) h)
  | _ => None
  end.

(** With an [ObjectId] that can be called without [new], as in mongoose 6
    and earlier. *)
#[global] Instance hex_library : Library := {|
  ObjectId_isValid v := bool_decide (is_Some (hex_id v));
  ObjectId_new := hex_id;
  castObjectId := hex_id;
  castString v := match v with JStr s => Some s | _ => None end;
  castNumber v := match v with JNum n => Some n | _ => None end;
  query_String := string_query;
  bcrypt_compare := toy_compare
|}.

(** The same, with an [ObjectId] that throws when it is called without
    [new], as in mongoose 7 and later. *)
Definition class_library : Library := {|
  ObjectId_isValid v := bool_decide (is_Some (hex_id v));
  ObjectId_new v := None;
  castObjectId := hex_id;
  castString v := match v with JStr s => Some s | _ => None end;
  castNumber v := match v with JNum n => Some n | _ => None end;
  query_String := string_query;
  bcrypt_compare := toy_compare
|}.

(** ** Sample data *)

Definition empty_store : Store := {| users := []; blogs := ∅; events := ∅ |}.

Definition workshop_id : ObjectId := "64b0c0ffee0000000000e001".
Definition alice : ObjectId := "64b0c0ffee0000000000a001".
Definition bob : ObjectId := "64b0c0ffee0000000000b002".

(** The document that [create_request n] below makes the server store. *)
Definition workshop (n : Z) : Event :=
  {| e_id := workshop_id; title := "Resilience"; description := "A workshop";
     category := "workshop"; date := "2025-06-01"; time := "10:00";
     location := "Room 1"; imageUrl := None;
     availableSeats := n; registrations := [];
     createdAt := 0; __v := 0 |}.

(** The body of a [POST /api/events] for an event with [n] seats. *)
Definition create_request (n : Z) : request :=
  {| params_id := ""; authorization := None;
     body := {[ "title" := JStr "Resilience";
                "description" := JStr "A workshop";
                "category" := JStr "workshop";
                "date" := JStr "2025-06-01";
                "time" := JStr "10:00";
                "location" := JStr "Room 1";
                "availableSeats" := JNum n ]};
     userId := None; clock := 0; fresh_id := workshop_id |}.

(** The store after an event with [n] seats was created. *)
Definition created (n : Z) : Store :=
  final_store (run (handle None POST_events (create_request n)) empty_store).

(** A [POST /api/events/<id>/register] with body [{ userId: v }]. *)
Definition register_request (id : string) (v : json) : request :=
  {| params_id := id; authorization := None;
     body := {[ "userId" := v ]};
     userId := None; clock := 0; fresh_id := "" |}.

(** A store with two members and one blog, written by Bob. *)
Definition blog_id : ObjectId := "64b0c0ffee0000000000c003".

Definition members : Store :=
  {| users := [ {| u_id := alice; u_name := "Alice"; u_email := "alice@example.org";
                   u_number := "1"; u_password := toy_hash "correct horse" |};
                {| u_id := bob; u_name := "Bob"; u_email := "bob@example.org";
                   u_number := "2"; u_password := toy_hash "battery staple" |} ];
     blogs := {[ blog_id := {| b_id := blog_id; b_title := "Hello";
                               b_content := "First post"; b_image := None;
                               b_author := Some bob |} ]};
     events := ∅ |}.

(** A [POST /api/login] with body [{ email, password }] at time [t]. *)
Definition login_request (email password : string) (t : Z) : request :=
  {| params_id := ""; authorization := None;
     body := {[ "email" := JStr email; "password" := JStr password ]};
     userId := None; clock := t; fresh_id := "" |}.

(** A [POST /api/login] with body [{ email: { "$gt": "" }, password }]. *)
Definition operator_login_request (password : string) (t : Z) : request :=
  {| params_id := ""; authorization := None;
     body := {[ "email" := JObject [("$gt", JStr "")]; "password" := JStr password ]};
     userId := None; clock := t; fresh_id := "" |}.

(** A [POST /api/login] with body [{ email }]: no password is sent. *)
Definition email_only_request (email : string) : request :=
  {| params_id := ""; authorization := None;
     body := {[ "email" := JStr email ]};
     userId := None; clock := 0; fresh_id := "" |}.

(** A [DELETE /api/blogs/<id>] with [Authorization: Bearer <token>] at time [t]. *)
Definition delete_request (id : string) (token : word) (t : Z) : request :=
  {| params_id := id; authorization := Some [Text "Bearer"; token];
     body := ∅; userId := None; clock := t; fresh_id := "" |}.

(** * The handlers that create users, blogs, jobs and appointments

    These handlers are embedded by state passing, for requests served one
    at a time: a handler takes the collection it writes and returns it with
    the answer sent. *)

(** [bcrypt.hash(v, 10)], with what bcryptjs guarantees of it: [compare]
    accepts a value with its own hash.  [None] is a rejected promise. *)
Class Hashing `{Library} := {
  bcrypt_hash : json → option string;
  bcrypt_hash_compare v h : bcrypt_hash v = Some h → bcrypt_compare v h = Some true
}.

(** [!v] *)
Definition falsy (v : json) : bool :=
  match v with
  | JUndefined | JNull => true
  | JBool b => negb b
  | JNum n => n =? 0
  | JStr s => bool_decide (s = "")
  | JArray _ | JObject _ => false
  end.

Definition set_users (s : Store) (l : list User) : Store :=
  {| users := l; blogs := blogs s; events := events s |}.

(** Line 487. *)
Definition job_types : list string := ["full-time"; "part-time"; "internship"].

(** Line 96. *)
Definition counselor_types : list string := ["psychologist"; "therapist"; "counselor"].

(** Lines 482-489. *)
Record Job := {
  j_id : ObjectId;
  j_title : string;
  j_company : string;
  j_location : string;
  j_description : string;
  j_type : string
}.

(** Lines 87-104; [a_date] is the date as the number the cast gives. *)
Record Appointment := {
  a_id : ObjectId;
  a_name : string;
  a_email : string;
  a_phone : string;
  a_date : Z;
  a_time : string;
  a_counselorType : string;
  a_status : string
}.

(** The [appointment] object of the answer (lines 315-321). *)
Record appointment_summary := {
  ap_id : ObjectId;
  ap_name : string;
  ap_date : Z;
  ap_time : string;
  ap_counselorType : string
}.

Inductive blog_answer :=
| Blog_refused (r : response)
| Blog_created (newBlog : Blog).

Inductive job_answer :=
| Job_refused (r : response)
| Job_added (message : string) (job : Job).

Inductive appointment_answer :=
| Appointment_refused (r : response)
| Appointment_scheduled (message : string) (appointment : appointment_summary).

Definition answer (code : Z) (message : string) : response :=
  {| status := code; sent := Message message |}.

Section Creation.

Context `{Hashing}.

Variable JWT_SECRET : option string.

(** The cast of a value into a [Date] schema path. *)
Variable castDate : json → option Z.

(** ** Users *)

(** [newUser.save()]: the insertion, which the unique indexes on [_id] and
    on [email] (line 70) refuse for a value already stored. *)
Definition do_User_save (doc : User) (s : Store) : Store * awaited unit :=
  if existsb (λ u, String.eqb (u_email u) (u_email doc)
                   || String.eqb (u_id u) (u_id doc)) (users s)
  then (s, Rejected DuplicateKeyError)
  else (set_users s (users s ++ [doc])%list, Fulfilled ()).

(** [new User({ name, email, number, password: hashedPassword })], or
    [None] when a path fails its cast or [required]. *)
Definition new_User (req : request) (hashedPassword : string) : option User :=
  n ← required (field req "name");
  e ← required (field req "email");
  m ← required (field req "number");
  _ ← guard (hashedPassword ≠ "");
  Some {| u_id := fresh_id req; u_name := n; u_email := e; u_number := m;
          u_password := hashedPassword |}.

(** Lines 161-179: [POST /api/signup]. *)
Definition signup (req : request) (s : Store) : Store * response :=
  match do_User_findOne (field req "email") s with
  | Rejected _ => (s, answer 500 "Error during registration")
  | Fulfilled (Some existingUser) => (s, answer 400 "Email already registered")
  | Fulfilled None =>
      match bcrypt_hash (field req "password") with
      | None => (s, answer 500 "Error during registration")
      | Some hashedPassword =>
          match new_User req hashedPassword with
          | None => (s, answer 500 "Error during registration")
          | Some newUser =>
              match do_User_save newUser s with
              | (s', Fulfilled _) => (s', answer 201 "User registered successfully")
              | (s', Rejected _) => (s', answer 500 "Error during registration")
              end
          end
      end
  end.

(** ** Blogs *)

(** [newBlog.save()] *)
Definition do_Blog_save (doc : Blog) (s : Store) : Store * awaited unit :=
  match blogs s !! b_id doc with
  | Some _ => (s, Rejected DuplicateKeyError)
  | None => (set_blogs s (<[b_id doc := doc]> (blogs s)), Fulfilled ())
  end.

(** [new Blog({ title, content, image, author: req.userId })], or [None]
    when a path fails its cast or [required]. *)
Definition new_Blog (req : request) : option Blog :=
  t ← required (field req "title");
  c ← required (field req "content");
  i ← optional (field req "image");
  a ← match userId req with
      | None => Some None
      | Some u => Some <$> castObjectId (JStr u)
      end;
  Some {| b_id := fresh_id req; b_title := t; b_content := c; b_image := i;
          b_author := a |}.

(** Lines 255-276: the handler of [POST /api/blogs]. *)
Definition create_blog (req : request) (s : Store) : Store * blog_answer :=
  if falsy (field req "title") || falsy (field req "content") then
    (s, Blog_refused (answer 400 "Title and content are required"))
  else
    match new_Blog req with
    | None => (s, Blog_refused (answer 500 "Server error"))
    | Some newBlog =>
        match do_Blog_save newBlog s with
        | (s', Fulfilled _) => (s', Blog_created newBlog)
        | (s', Rejected _) => (s', Blog_refused (answer 500 "Server error"))
        end
    end.

(** [POST /api/blogs]: [authenticate], then the handler. *)
Definition post_blogs (req : request) (s : Store) : Store * blog_answer :=
  let x := run (authenticate JWT_SECRET req) s in
  match result x with
  | Responded r => (final_store x, Blog_refused r)
  | CalledNext req' => create_blog req' (final_store x)
  end.

(** ** Jobs *)

(** [new Job({ title, company, location, description, type })] with its
    validation: the casts and the [enum] of [type]. *)
Definition new_Job (req : request) : option Job :=
  t ← castString (field req "title");
  c ← castString (field req "company");
  l ← castString (field req "location");
  d ← castString (field req "description");
  ty ← (if falsy (field req "type") then Some "full-time"
        else castString (field req "type"));
  _ ← guard (ty ∈ job_types);
  Some {| j_id := fresh_id req; j_title := t; j_company := c; j_location := l;
          j_description := d; j_type := ty |}.

(** Lines 228-251: [POST /api/jobs]. *)
Definition add_job (req : request) (jobs : list Job) : list Job * job_answer :=
  if falsy (field req "title") || falsy (field req "company")
     || falsy (field req "location") || falsy (field req "description") then
    (jobs, Job_refused (answer 400 "All fields except type are required"))
  else
    match new_Job req with
    | None => (jobs, Job_refused (answer 500 "Error adding job"))
    | Some newJob =>
        ((jobs ++ [newJob])%list, Job_added "Job added successfully" newJob)
    end.

(** ** Appointments *)

(** [new MentalHealthAppointment({ ... })] with its validation; [status]
    takes its default. *)
Definition new_Appointment (req : request) : option Appointment :=
  n ← required (field req "name");
  e ← required (field req "email");
  p ← required (field req "phone");
  d ← castDate (field req "date");
  t ← required (field req "time");
  ct ← (if falsy (field req "counselorType") then Some "psychologist"
        else castString (field req "counselorType"));
  _ ← guard (ct ∈ counselor_types);
  Some {| a_id := fresh_id req; a_name := n; a_email := e; a_phone := p;
          a_date := d; a_time := t; a_counselorType := ct; a_status := "pending" |}.

(** Lines 294-327: [POST /api/appointments]. *)
Definition create_appointment (req : request) (l : list Appointment)
    : list Appointment * appointment_answer :=
  if falsy (field req "name") || falsy (field req "email")
     || falsy (field req "phone") || falsy (field req "date")
     || falsy (field req "time") then
    (l, Appointment_refused (answer 400 "All fields are required"))
  else
    match new_Appointment req with
    | None => (l, Appointment_refused (answer 500 "Error scheduling appointment"))
    | Some appointment =>
        ((l ++ [appointment])%list,
         Appointment_scheduled "Appointment scheduled successfully"
           {| ap_id := a_id appointment; ap_name := a_name appointment;
              ap_date := a_date appointment; ap_time := a_time appointment;
              ap_counselorType := a_counselorType appointment |})
    end.

(** ** Invariants of the collections *)

(** No two stored users have the same email. *)
Definition emails_unique (s : Store) : Prop := NoDup (map u_email (users s)).

End Creation.

#[global, refine] Instance toy_hashing : Hashing := {|
  bcrypt_hash v := match v with JStr p => Some (toy_hash p) | _ => None end
|}.
Proof.
  intros v h Hh. destruct v as [| | | |p| |]; try discriminate.
  injection Hh as <-. simpl. by rewrite String.eqb_refl.
Defined.

(** A [POST /api/signup] with the four fields. *)
Definition signup_request (id : ObjectId) (name email number password : string)
    : request :=
  {| params_id := ""; authorization := None;
     body := {[ "name" := JStr name; "email" := JStr email;
                "number" := JStr number; "password" := JStr password ]};
     userId := None; clock := 0; fresh_id := id |}.

(** A [POST /api/blogs] with [Authorization: Bearer <token>] at time [t]. *)
Definition blog_request (id : ObjectId) (title content : string) (token : word)
    (t : Z) : request :=
  {| params_id := ""; authorization := Some [Text "Bearer"; token];
     body := {[ "title" := JStr title; "content" := JStr content ]};
     userId := None; clock := t; fresh_id := id |}.

Definition carol : ObjectId := "64b0c0ffee0000000000d004".

(** A [POST /api/jobs] without [type]. *)
Definition job_request (id : ObjectId) (title company location description : string)
    : request :=
  {| params_id := ""; authorization := None;
     body := {[ "title" := JStr title; "company" := JStr company;
                "location" := JStr location; "description" := JStr description ]};
     userId := None; clock := 0; fresh_id := id |}.

(** A [POST /api/appointments] without [counselorType], its date given as
    a number. *)
Definition appointment_request (id : ObjectId) (name email phone : string)
    (date : Z) (time : string) : request :=
  {| params_id := ""; authorization := None;
     body := {[ "name" := JStr name; "email" := JStr email; "phone" := JStr phone;
                "date" := JNum date; "time" := JStr time ]};
     userId := None; clock := 0; fresh_id := id |}.

(** A cast to a date that takes numbers only. *)
Definition number_date (v : json) : option Z :=
  match v with
  | JNum n => Some n
  | _ => None
  end.

(** [e'] is [e] with registrations added at the end and, possibly, another
    seat count and another version. *)
Definition grown (e e' : Event) : Prop :=
  (∃ extra, registrations e' = (registrations e ++ extra)%list)
  ∧ e_id e' = e_id e ∧ title e' = title e ∧ description e' = description e
  ∧ category e' = category e ∧ date e' = date e ∧ time e' = time e
  ∧ location e' = location e ∧ imageUrl e' = imageUrl e
  ∧ createdAt e' = createdAt e.

(** [Number.isSafeInteger(n)], for an integer: the numbers on which
    [n - 1] (line 364) is the subtraction of the integers.  From 2^53 on a
    JavaScript number has no exact predecessor. *)
Definition isSafeInteger (n : Z) : bool := (- 2 ^ 53 <? n) && (n <? 2 ^ 53).

(** A pending handler of which every path, whatever the store answers,
    makes no call but [findById], ends with an answer, and confirms no
    registration. *)
Fixpoint reads_events_only (p : prog) : Prop :=
  match p with
  | Done (Responded r) => registered_outcome (Responded r) = false
  | Done (CalledNext _) => False
  | Event_findById _ k => ∀ a, reads_events_only (k a)
  | User_findOne _ _ | Blog_findOneAndDelete _ _ _
  | Event_save _ _ _ | Event_insert _ _ => False
  end.

(** * Properties *)

Section Properties.

Context `{Library}.

Variable JWT_SECRET : option string.

(** Closes a goal [c ∉ calls x] once the log [calls x] is a literal list
    of other calls. *)
Ltac not_called :=
  unfold calls; cbn [fst snd];
  repeat (apply not_elem_of_cons; split; [discriminate|]);
  apply not_elem_of_nil.

(** ** Routing *)

Lemma run_and_then_answers p rest s :
  answers p → run (and_then p rest) s = run p s.
Proof.
  revert s. induction p as [o|e k IH|i a k IH|i k IH|d ps k IH|d k IH];
    intros s Hp; simpl in *.
  - destruct o; [reflexivity | contradiction].
  - rewrite IH; auto.
  - destruct (do_Blog_findOneAndDelete i a s). rewrite IH; auto.
  - rewrite IH; auto.
  - destruct (do_Event_save d ps s). rewrite IH; auto.
  - destruct (do_Event_insert d s). rewrite IH; auto.
Qed.

Lemma step_and_then p rest s :
  answers p → step (and_then p rest) s = ((step p s).1, and_then (step p s).2 rest).
Proof.
  destruct p as [[r|r]|e k|i a k|i k|d ps k|d k]; simpl; try done.
  - by destruct (do_Blog_findOneAndDelete i a s).
  - by destruct (do_Event_save d ps s).
  - by destruct (do_Event_insert d s).
Qed.

Lemma step_answers p s : answers p → answers (step p s).2.
Proof.
  destruct p as [[r|r]|e k|i a k|i k|d ps k|d k]; simpl; try done.
  - intros Hk. destruct (do_Blog_findOneAndDelete i a s). apply Hk.
  - intros Hk. destruct (do_Event_save d ps s). apply Hk.
  - intros Hk. destruct (do_Event_insert d s). apply Hk.
Qed.

Lemma register_first_answers req : answers (register_first req).
Proof.
  intros [[e|]|]; simpl; auto.
  destruct (availableSeats e <=? 0); simpl; auto.
  destruct (negb _); simpl; auto.
  destruct (ObjectId_new _); simpl; auto.
  by intros [|].
Qed.

Lemma stack_of_register :
  stack_of JWT_SECRET POST_events_id_register = [register_first; register_second].
Proof. reflexivity. Qed.

Lemma run_handle_register req s :
  run (handle JWT_SECRET POST_events_id_register req) s = run (register_first req) s.
Proof.
  unfold handle. rewrite stack_of_register.
  exact (run_and_then_answers _ _ _ (register_first_answers req)).
Qed.

(** ** One registration run to its end *)

Lemma findById_Some req s event :
  do_Event_findById (params_id req) s = Fulfilled (Some event) →
  ∃ id, castObjectId (JStr (params_id req)) = Some id ∧ events s !! id = Some event.
Proof.
  unfold do_Event_findById. destruct (castObjectId _) as [id|]; [|done].
  intros [= E]. eauto.
Qed.

(** What [save] stores when the stored document is still the one that
    was loaded. *)
Lemma saved_loaded event oid :
  saved (booked event oid) [oid] event = after_save (booked event oid).
Proof. reflexivity. Qed.

(** Where the event is found, has a seat left and the identifier passes
    [isValid], the registration is written and confirmed. *)
Lemma run_register_first_ok s req id event oid :
  store_wf s →
  castObjectId (JStr (params_id req)) = Some id →
  events s !! id = Some event →
  0 < availableSeats event →
  ObjectId_isValid (field req "userId") = true →
  ObjectId_new (field req "userId") = Some oid →
  run (register_first req) s =
    (set_events s (<[id := after_save (booked event oid)]> (events s)),
     [Call_Event_findById (params_id req); Call_Event_save (booked event oid) [oid]],
     Responded {| status := 200;
                  sent := MessageEvent "Registration successful"
                            (after_save (booked event oid)) |}).
Proof.
  intros Hwf Hid He Hseats Hv Hn.
  pose proof (Hwf _ _ He) as Hk.
  unfold register_first, run, do_Event_findById. rewrite Hid, He.
  destruct (Z.leb_spec (availableSeats event) 0) as [|_]; [lia|].
  rewrite Hv, Hn. simpl negb. cbv iota.
  unfold do_Event_save, validate. simpl availableSeats. simpl e_id.
  destruct (Z.leb_spec 0 (availableSeats event - 1)) as [_|]; [|lia].
  rewrite Hk, He. reflexivity.
Qed.

(** A registration either stops after the [findById], with the store as
    it was and an answer that is not a confirmation, or meets the
    conditions of [run_register_first_ok]. *)
Lemma run_register_first_cases s req :
  (final_store (run (register_first req) s) = s
   ∧ calls (run (register_first req) s) = [Call_Event_findById (params_id req)]
   ∧ registered_outcome (result (run (register_first req) s)) = false)
  ∨ ∃ event oid,
      do_Event_findById (params_id req) s = Fulfilled (Some event)
      ∧ 0 < availableSeats event
      ∧ ObjectId_isValid (field req "userId") = true
      ∧ ObjectId_new (field req "userId") = Some oid.
Proof.
  unfold register_first, run.
  destruct (do_Event_findById (params_id req) s) as [[event|]|]; [|left; done..].
  destruct (Z.leb_spec (availableSeats event) 0) as [|Hs]; [left; done|].
  destruct (ObjectId_isValid (field req "userId")) eqn:Hv; [|left; done].
  destruct (ObjectId_new (field req "userId")) as [oid|] eqn:Hn; [|left; done].
  right. by exists event, oid.
Qed.

Lemma registered_event_None o :
  registered_outcome o = false → registered_event o = None.
Proof.
  destruct o as [[st []]|]; try done.
  all: destruct st as [|[]|]; try done.
  all: repeat (match goal with p : positive |- _ => destruct p end; try done).
Qed.

(** ** The seat count never falls below zero *)

Lemma do_Event_save_nonneg doc pushed s :
  seats_nonneg s → seats_nonneg (do_Event_save doc pushed s).1.
Proof.
  intros Hs. unfold do_Event_save, validate.
  destruct (Z.leb_spec 0 (availableSeats doc)) as [Hd|]; [|done].
  destruct (events s !! e_id doc) as [cur|]; [|done].
  intros id e. simpl. rewrite lookup_insert.
  case_decide; [|by apply Hs].
  by intros [= <-].
Qed.

Lemma do_Event_insert_nonneg doc s :
  seats_nonneg s → seats_nonneg (do_Event_insert doc s).1.
Proof.
  intros Hs. unfold do_Event_insert, validate.
  destruct (Z.leb_spec 0 (availableSeats doc)) as [Hd|]; [|done].
  destruct (events s !! e_id doc) as [cur|]; [done|].
  intros id e. simpl. rewrite lookup_insert.
  case_decide; [|by apply Hs].
  by intros [= <-].
Qed.

Lemma do_Blog_findOneAndDelete_events id author s :
  events (do_Blog_findOneAndDelete id author s).1 = events s.
Proof.
  unfold do_Blog_findOneAndDelete.
  destruct (castObjectId (JStr id)); [|done].
  destruct (match author with Some u => _ | None => _ end); [|done].
  destruct (blogs s !! _); [|done].
  by case_decide.
Qed.

Lemma step_nonneg p s : seats_nonneg s → seats_nonneg (step p s).1.
Proof.
  intros Hs. destruct p as [o|e k|i a k|i k|d ps k|d k]; simpl; try done.
  - pose proof (do_Blog_findOneAndDelete_events i a s) as E.
    destruct (do_Blog_findOneAndDelete i a s) as [s' r]. simpl in *.
    unfold seats_nonneg. rewrite E. exact Hs.
  - pose proof (do_Event_save_nonneg d ps s Hs) as E.
    by destruct (do_Event_save d ps s).
  - pose proof (do_Event_insert_nonneg d s Hs) as E.
    by destruct (do_Event_insert d s).
Qed.

Lemma step_at_nonneg i c : seats_nonneg c.1 → seats_nonneg (step_at i c).1.
Proof.
  intros Hs. unfold step_at. destruct (c.2 !! i) as [p|]; [|done].
  pose proof (step_nonneg p c.1 Hs) as E.
  by destruct (step p c.1).
Qed.

Lemma exec_nonneg schedule c : seats_nonneg c.1 → seats_nonneg (exec schedule c).1.
Proof.
  revert c. induction schedule as [|i schedule IH]; intros c Hc; [done|].
  apply (IH (step_at i c)), step_at_nonneg, Hc.
Qed.

(** ** Registrations served one after the other *)

Lemma store_wf_insert s id e :
  store_wf s → e_id e = id → store_wf (set_events s (<[id := e]> (events s))).
Proof.
  intros Hwf He k e'. simpl. rewrite lookup_insert.
  case_decide; [|by apply Hwf].
  by intros [= <-]; subst.
Qed.

(** What one registration, run to its end, does to the stored event [id]. *)
Lemma register_effect s req id e :
  store_wf s →
  events s !! id = Some e →
  store_wf (final_store (run (register_first req) s))
  ∧ ∃ e', events (final_store (run (register_first req) s)) !! id = Some e'
      ∧ if decide (e_id <$> registered_event (result (run (register_first req) s))
                   = Some id)
        then 0 < availableSeats e
             ∧ availableSeats e' = availableSeats e - 1
             ∧ length (registrations e') = S (length (registrations e))
        else e' = e.
Proof.
  intros Hwf He.
  destruct (run_register_first_cases s req)
    as [(Hs & _ & Hr)|(event & oid & Hf & Hseats & Hv & Hn)].
  - rewrite Hs. split; [done|]. exists e. split; [done|].
    rewrite (registered_event_None _ Hr). by case_decide.
  - destruct (findById_Some _ _ _ Hf) as (id0 & Hid & He0).
    rewrite (run_register_first_ok s req id0 event oid) by done.
    unfold final_store, result. simpl fst. simpl snd.
    pose proof (Hwf _ _ He0) as Hk.
    split; [by apply store_wf_insert|].
    simpl events. rewrite lookup_insert. simpl registered_event.
    destruct (decide (id0 = id)) as [->|Hne].
    + exists (after_save (booked event oid)). split; [done|].
      rewrite He in He0. injection He0 as ->.
      rewrite decide_True by (simpl; congruence).
      simpl. rewrite length_app. simpl. split; [done|]. split; [done|]. lia.
    + exists e. split; [done|].
      rewrite decide_False; [done|]. simpl. congruence.
Qed.

Lemma run_seq_cons p ps s :
  run_seq (p :: ps) s =
    ((run_seq ps (final_store (run p s))).1,
     result (run p s) :: (run_seq ps (final_store (run p s))).2).
Proof.
  change (run_seq (p :: ps) s)
    with (let '(s', os) := run_seq ps (final_store (run p s)) in
          (s', result (run p s) :: os)).
  by destruct (run_seq ps (final_store (run p s))).
Qed.

Lemma run_seq_register reqs : ∀ s id e,
  store_wf s →
  events s !! id = Some e →
  ∃ e', events (run_seq (map (handle JWT_SECRET POST_events_id_register) reqs) s).1 !! id
        = Some e'
    ∧ availableSeats e' =
        availableSeats e
        - Z.of_nat (successes_on id
            (run_seq (map (handle JWT_SECRET POST_events_id_register) reqs) s).2)
    ∧ length (registrations e') =
        (length (registrations e)
         + successes_on id
             (run_seq (map (handle JWT_SECRET POST_events_id_register) reqs) s).2)%nat
    ∧ (0 <= availableSeats e → 0 <= availableSeats e').
Proof.
  induction reqs as [|req reqs IH]; intros s id e Hwf He.
  - exists e. simpl. unfold successes_on. rewrite filter_nil. simpl.
    split; [done|]. split; [lia|]. split; [lia|done].
  - rewrite map_cons, run_seq_cons, run_handle_register.
    destruct (register_effect s req id e Hwf He) as (Hwf1 & e1 & He1 & Hcase).
    destruct (IH _ id e1 Hwf1 He1) as (e' & He' & Hseats & Hlen & Hpos).
    destruct (run_seq _ (final_store (run (register_first req) s))) as [s' os].
    simpl fst in *. simpl snd in *. exists e'. split; [done|].
    unfold successes_on in *.
    destruct (decide (e_id <$> registered_event (result (run (register_first req) s))
                      = Some id)) as [Hd|Hd].
    + destruct Hcase as (Hp & Hs1 & Hl1).
      rewrite filter_cons_True by done. simpl length.
      split; [lia|]. split; [lia|]. lia.
    + subst e1. rewrite filter_cons_False by done.
      split; [lia|]. split; [lia|]. done.
Qed.

(** ** Where [ObjectId(...)] throws *)

Lemma and_then_reads_events_only p rest :
  reads_events_only p → reads_events_only (and_then p rest).
Proof.
  induction p as [o|e k IH|i a k IH|i k IH|d ps k IH|d k IH]; simpl; try done.
  - by destruct o.
  - intros Hk a. by apply IH.
Qed.

Lemma register_first_reads_events_only req :
  ObjectId_new (field req "userId") = None → reads_events_only (register_first req).
Proof.
  intros Hn [[e|]|]; simpl; try done.
  destruct (availableSeats e <=? 0); [done|].
  destruct (negb _); [done|]. by rewrite Hn.
Qed.

Lemma handle_register_reads_events_only req :
  ObjectId_new (field req "userId") = None →
  reads_events_only (handle JWT_SECRET POST_events_id_register req).
Proof.
  intros Hn. unfold handle. rewrite stack_of_register.
  change (dispatch [register_first; register_second] req)
    with (and_then (register_first req) (dispatch [register_second])).
  by apply and_then_reads_events_only, register_first_reads_events_only.
Qed.

Lemma step_reads_events_only p s :
  reads_events_only p → (step p s).1 = s ∧ reads_events_only (step p s).2.
Proof.
  destruct p as [[r|r]|e k|i a k|i k|d ps k|d k]; simpl; try done.
  all: intros Hk; split; [done | apply Hk].
Qed.

Lemma reads_events_only_registered p : reads_events_only p → registered p = false.
Proof. by destruct p as [[r|r]|e k|i a k|i k|d ps k|d k]. Qed.

Lemma step_at_reads_events_only i c :
  Forall reads_events_only c.2 →
  (step_at i c).1 = c.1 ∧ Forall reads_events_only (step_at i c).2.
Proof.
  intros Hall. unfold step_at. destruct (c.2 !! i) as [p|] eqn:Hp; [|done].
  destruct (step_reads_events_only p c.1) as [Hs Hp'].
  { exact (proj1 (Forall_lookup _ _) Hall i p Hp). }
  destruct (step p c.1) as [s' p']. cbn [fst snd] in *. split; [done|].
  by apply Forall_insert.
Qed.

Lemma exec_reads_events_only schedule c :
  Forall reads_events_only c.2 →
  (exec schedule c).1 = c.1 ∧ Forall reads_events_only (exec schedule c).2.
Proof.
  revert c. induction schedule as [|i schedule IH]; intros c Hc; [done|].
  destruct (step_at_reads_events_only i c Hc) as [Hs Hall].
  destruct (IH (step_at i c) Hall) as [Hs' Hall'].
  change (exec (i :: schedule) c) with (exec schedule (step_at i c)).
  split; [congruence | done].
Qed.

Lemma successes_reads_events_only pool :
  Forall reads_events_only pool → successes pool = 0%nat.
Proof.
  unfold successes. induction 1 as [|p pool Hp _ IH]; [done|].
  rewrite filter_cons_False; [done|].
  by rewrite (reads_events_only_registered p Hp).
Qed.

(** A registration for an event with a seat left, with an identifier that
    passes [isValid], where [ObjectId(...)] throws. *)
Lemma run_register_first_thrown s req id event :
  castObjectId (JStr (params_id req)) = Some id →
  events s !! id = Some event →
  0 < availableSeats event →
  ObjectId_isValid (field req "userId") = true →
  ObjectId_new (field req "userId") = None →
  run (register_first req) s
  = (s, [Call_Event_findById (params_id req)],
     Responded {| status := 500; sent := Message "Error registering for event" |}).
Proof.
  intros Hid He Hseats Hv Hn. unfold register_first, run, do_Event_findById.
  rewrite Hid, He.
  destruct (Z.leb_spec (availableSeats event) 0) as [|_]; [lia|].
  by rewrite Hv, Hn.
Qed.

(** ** The two store calls of a registration *)

(** The first call served: the store is as it was, and the handler has
    answered without a confirmation, or it waits for its [save]. *)
Lemma step_register_cases s req :
  (step (handle JWT_SECRET POST_events_id_register req) s).1 = s
  ∧ ((∃ o, (step (handle JWT_SECRET POST_events_id_register req) s).2 = Done o
           ∧ registered_outcome o = false)
     ∨ ∃ id event oid k,
         castObjectId (JStr (params_id req)) = Some id
         ∧ events s !! id = Some event
         ∧ 0 < availableSeats event
         ∧ ObjectId_isValid (field req "userId") = true
         ∧ ObjectId_new (field req "userId") = Some oid
         ∧ (step (handle JWT_SECRET POST_events_id_register req) s).2
           = Event_save (booked event oid) [oid] k
         ∧ k (Fulfilled ())
           = respond 200 (MessageEvent "Registration successful"
                            (after_save (booked event oid)))
         ∧ ∀ e, k (Rejected e) = respond 500 (Message "Error registering for event")).
Proof.
  unfold handle. rewrite stack_of_register.
  change (dispatch [register_first; register_second] req)
    with (and_then (register_first req) (dispatch [register_second])).
  rewrite step_and_then by apply register_first_answers.
  unfold register_first, step, do_Event_findById. cbn [fst snd].
  split; [done|].
  destruct (castObjectId (JStr (params_id req))) as [id|] eqn:Hid;
    [|left; by eexists].
  destruct (events s !! id) as [event|] eqn:He; [|left; by eexists].
  destruct (Z.leb_spec (availableSeats event) 0) as [|Hs]; [left; by eexists|].
  destruct (ObjectId_isValid (field req "userId")) eqn:Hv; [|left; by eexists].
  destruct (ObjectId_new (field req "userId")) as [oid|] eqn:Hn; [|left; by eexists].
  right. cbn [negb and_then]. exists id, event, oid. eexists.
  do 5 (split; [done|]). split; [reflexivity|]. split; [done|]. by intros e.
Qed.

(** C1 (amended).  However the store calls of requests in flight are
    interleaved, no stored event ever has a negative [availableSeats].  For
    registrations served one after the other on an event created with
    capacity N, a safe integer (no registration yet, N seats), the number
    of successful registrations never exceeds N: it is the length of
    [registrations], and [availableSeats] is N minus that number.  Where
    [mongoose.Types.ObjectId], called without [new] at line 363, throws,
    no registration is ever confirmed and none changes the store, however
    the calls are interleaved.  (Where that call returns the ObjectId,
    registrations in flight together can exceed N.) *)
Theorem exec_registrations_seq_capacity :
  (∀ schedule s pool,
     seats_nonneg s → seats_nonneg (exec schedule (s, pool)).1)
  ∧ (∀ reqs s id e,
       store_wf s →
       events s !! id = Some e →
       registrations e = [] →
       0 <= availableSeats e →
       isSafeInteger (availableSeats e) = true →
       let served := run_seq (map (handle JWT_SECRET POST_events_id_register) reqs) s in
       Z.of_nat (successes_on id served.2) <= availableSeats e
       ∧ ∃ e', events served.1 !! id = Some e'
           ∧ 0 <= availableSeats e'
           ∧ length (registrations e') = successes_on id served.2
           ∧ availableSeats e' = availableSeats e - Z.of_nat (successes_on id served.2))
  ∧ (∀ schedule s reqs,
       Forall (λ req, ObjectId_new (field req "userId") = None) reqs →
       let c := exec schedule
                  (s, map (handle JWT_SECRET POST_events_id_register) reqs) in
       c.1 = s ∧ successes c.2 = 0%nat).
Proof.
  split; [|split].
  - intros schedule s pool Hs. by apply (exec_nonneg schedule (s, pool)).
  - intros reqs s id e Hwf He Hregs Hpos _ served.
    destruct (run_seq_register reqs s id e Hwf He) as (e' & He' & Hseats & Hlen & Hnn).
    fold served in He', Hseats, Hlen. specialize (Hnn Hpos).
    rewrite Hregs in Hlen. simpl in Hlen.
    split; [lia|]. exists e'. by repeat split.
  - intros schedule s reqs Hall c. subst c.
    destruct (exec_reads_events_only schedule
                (s, map (handle JWT_SECRET POST_events_id_register) reqs))
      as [Hs Hpool].
    { cbn [snd]. apply Forall_map.
      eapply Forall_impl; [exact Hall|]. intros req Hn. cbn.
      by apply handle_register_reads_events_only. }
    split; [exact Hs | by apply successes_reads_events_only].
Qed.

(** C2 (amended).  No store call of a registration is a conditional
    update.  A registration always starts with a read of the event,
    [findById], and checks the capacity on the document it read (and
    nothing about earlier registrations).  Where [mongoose.Types.ObjectId],
    called without [new] at line 363, returns the ObjectId, a registration
    with a seat left and a well-formed identifier then writes, with a
    separate [save], the document it read with the registrant pushed and
    one seat less; the two calls act as one operation when they are served
    back to back, and [save] itself sets the stored seat count to that of
    the document, whatever is stored.  Where that call throws, the read is
    the only store call of a registration: nothing is ever written, and a
    request with a seat left and a well-formed identifier is answered
    500.  Who is registered already plays no part in what a registration
    calls. *)
Theorem register_read_check_write :
  (∀ s req,
     let x := run (handle JWT_SECRET POST_events_id_register req) s in
     head (calls x) = Some (Call_Event_findById (params_id req))
     ∧ ((calls x = [Call_Event_findById (params_id req)]
         ∧ final_store x = s
         ∧ registered_outcome (result x) = false)
        ∨ ∃ event oid,
            do_Event_findById (params_id req) s = Fulfilled (Some event)
            ∧ 0 < availableSeats event
            ∧ ObjectId_isValid (field req "userId") = true
            ∧ ObjectId_new (field req "userId") = Some oid
            ∧ calls x = [Call_Event_findById (params_id req);
                         Call_Event_save (booked event oid) [oid]]))
  ∧ (∀ s req,
       ObjectId_new (field req "userId") = None →
       let x := run (handle JWT_SECRET POST_events_id_register req) s in
       calls x = [Call_Event_findById (params_id req)]
       ∧ final_store x = s
       ∧ registered_outcome (result x) = false
       ∧ ∀ event,
           do_Event_findById (params_id req) s = Fulfilled (Some event) →
           0 < availableSeats event →
           ObjectId_isValid (field req "userId") = true →
           result x
           = Responded {| status := 500;
                          sent := Message "Error registering for event" |})
  ∧ (∀ s req,
       let x := run (handle JWT_SECRET POST_events_id_register req) s in
       let c1 := step (handle JWT_SECRET POST_events_id_register req) s in
       let c2 := step c1.2 c1.1 in
       c1.1 = s ∧ c2 = (final_store x, Done (result x)))
  ∧ (∀ doc pushed s cur,
       validate doc = true →
       events s !! e_id doc = Some cur →
       events (do_Event_save doc pushed s).1 !! e_id doc
       = Some (saved doc pushed cur)
       ∧ availableSeats (saved doc pushed cur) = availableSeats doc)
  ∧ (∀ s req event oid,
       do_Event_findById (params_id req) s = Fulfilled (Some event) →
       0 < availableSeats event →
       ObjectId_isValid (field req "userId") = true →
       ObjectId_new (field req "userId") = Some oid →
       calls (run (handle JWT_SECRET POST_events_id_register req) s)
       = [Call_Event_findById (params_id req);
          Call_Event_save (booked event oid) [oid]]).
Proof.
  split; [|split; [|split; [|split]]].
  - intros s req x. subst x. rewrite run_handle_register.
    unfold register_first, run.
    destruct (do_Event_findById (params_id req) s) as [[event|]|];
      [|split; [done | left; done]..].
    destruct (Z.leb_spec (availableSeats event) 0) as [|Hs];
      [split; [done | left; done]|].
    destruct (ObjectId_isValid (field req "userId")) eqn:Hv;
      [|split; [done | left; done]].
    destruct (ObjectId_new (field req "userId")) as [oid|] eqn:Hn;
      [|split; [done | left; done]].
    cbn [negb]. fold (booked event oid).
    split; [by destruct (do_Event_save _ _ _) as [? [|]]|].
    right. exists event, oid. repeat split; try done.
    by destruct (do_Event_save _ _ _) as [? [|]].
  - intros s req Hn x. subst x. rewrite run_handle_register.
    unfold register_first, run.
    destruct (do_Event_findById (params_id req) s) as [[event|]|];
      [|by repeat split..].
    destruct (Z.leb_spec (availableSeats event) 0) as [|Hs].
    { repeat split; try done. intros ev [= <-]. lia. }
    destruct (ObjectId_isValid (field req "userId")) eqn:Hv.
    + rewrite Hn. by repeat split.
    + by repeat split.
  - intros s req x c1 c2. subst x c1 c2. rewrite run_handle_register.
    unfold handle. rewrite stack_of_register.
    change (dispatch [register_first; register_second] req)
      with (and_then (register_first req) (dispatch [register_second])).
    rewrite step_and_then by apply register_first_answers. cbn [fst snd].
    rewrite step_and_then by apply step_answers, register_first_answers.
    unfold register_first, step, run. cbn [fst snd].
    destruct (do_Event_findById (params_id req) s) as [[event|]|]; [|done..].
    destruct (availableSeats event <=? 0); [done|].
    destruct (negb _); [done|].
    destruct (ObjectId_new (field req "userId")) as [oid|]; [|done].
    by destruct (do_Event_save _ _ _) as [? [|]].
  - intros doc pushed s cur Hv Hc. unfold do_Event_save. rewrite Hv, Hc.
    simpl. by rewrite lookup_insert_eq.
  - intros s req event oid Hf Hseats Hv Hn. rewrite run_handle_register.
    unfold register_first, run. rewrite Hf.
    destruct (Z.leb_spec (availableSeats event) 0) as [|_]; [lia|].
    rewrite Hv, Hn. cbn [negb]. fold (booked event oid).
    by destruct (do_Event_save _ _ _) as [? [|]].
Qed.

(** C3 (amended).  No answer of a registration says that the identity is
    registered already: a registration is confirmed, or answered 400 "No
    available seats", 400 "Invalid userId", 404 "Event not found" or 500
    "Error registering for event".  Where [mongoose.Types.ObjectId], called
    without [new] at line 363, returns the ObjectId, an identity that is
    already in the event's [registrations] and registers again while a
    seat is left is confirmed again: [availableSeats], a safe integer, is
    decremented by 1 and the identity is pushed once more, so that it
    occurs at least twice.  Where that call throws, such a request is
    answered 500 "Error registering for event" and nothing is stored,
    whoever is registered. *)
Theorem register_again_succeeds :
  (∀ s req,
     let x := run (handle JWT_SECRET POST_events_id_register req) s in
     (∃ event,
        result x = Responded {| status := 200;
                                sent := MessageEvent "Registration successful" event |})
     ∨ result x = Responded {| status := 400; sent := Message "No available seats" |}
     ∨ result x = Responded {| status := 400; sent := Message "Invalid userId" |}
     ∨ result x = Responded {| status := 404; sent := Message "Event not found" |}
     ∨ result x = Responded {| status := 500;
                               sent := Message "Error registering for event" |})
  ∧ (∀ s req id event oid,
       store_wf s →
       castObjectId (JStr (params_id req)) = Some id →
       events s !! id = Some event →
       oid ∈ registrations event →
       0 < availableSeats event →
       isSafeInteger (availableSeats event) = true →
       ObjectId_isValid (field req "userId") = true →
       ObjectId_new (field req "userId") = Some oid →
       let x := run (handle JWT_SECRET POST_events_id_register req) s in
       let event' := after_save (booked event oid) in
       result x = Responded {| status := 200;
                               sent := MessageEvent "Registration successful" event' |}
       ∧ events (final_store x) !! id = Some event'
       ∧ availableSeats event' = availableSeats event - 1
       ∧ registrations event' = (registrations event ++ [oid])%list
       ∧ length (filter (λ u, u = oid) (registrations event'))
         = S (length (filter (λ u, u = oid) (registrations event)))
       ∧ (2 <= length (filter (λ u, u = oid) (registrations event')))%nat)
  ∧ (∀ s req id event,
       castObjectId (JStr (params_id req)) = Some id →
       events s !! id = Some event →
       0 < availableSeats event →
       ObjectId_isValid (field req "userId") = true →
       ObjectId_new (field req "userId") = None →
       run (handle JWT_SECRET POST_events_id_register req) s
       = (s, [Call_Event_findById (params_id req)],
          Responded {| status := 500;
                       sent := Message "Error registering for event" |})).
Proof.
  split; [|split].
  - intros s req x. subst x. rewrite run_handle_register.
    unfold register_first, run.
    destruct (do_Event_findById (params_id req) s) as [[event|]|];
      [|by do 3 right; left|by do 4 right].
    destruct (availableSeats event <=? 0); [by right; left|].
    destruct (negb _); [by do 2 right; left|].
    destruct (ObjectId_new (field req "userId")) as [oid|]; [|by do 4 right].
    destruct (do_Event_save _ _ _) as [? [|]]; [left; by eexists | by do 4 right].
  - intros s req id event oid Hwf Hid He Hin Hseats _ Hv Hn x event'. subst x event'.
    rewrite run_handle_register.
    rewrite (run_register_first_ok s req id event oid) by done.
    unfold result, final_store. cbn [fst snd events set_events].
    split; [done|]. split; [by rewrite lookup_insert_eq|].
    split; [done|]. split; [done|].
    assert (length (filter (λ u, u = oid)
                      (registrations (after_save (booked event oid))))
            = S (length (filter (λ u, u = oid) (registrations event)))) as Hcount.
    { simpl. rewrite filter_app, length_app, filter_cons_True by done.
      rewrite filter_nil. simpl. lia. }
    split; [done|]. rewrite Hcount.
    assert (length (filter (λ u, u = oid) (registrations event)) ≠ 0%nat); [|lia].
    intros Hz. apply length_zero_iff_nil in Hz.
    assert (oid ∈ filter (λ u, u = oid) (registrations event)) as Hf
      by (by apply list_elem_of_filter).
    rewrite Hz in Hf. by apply not_elem_of_nil in Hf.
  - intros s req id event Hid He Hseats Hv Hn.
    rewrite run_handle_register. by apply (run_register_first_thrown s req id event).
Qed.

(** C10 (amended).  A registration is confirmed by its [save].  Whatever
    was served between its [findById] (at store [s0]) and its [save] (at
    store [s]), a confirmed registration has appended exactly one element
    to the stored [registrations] of the event, has incremented its
    version key [__v] by 1, and has stored, as [availableSeats], the count
    it loaded (a safe integer) minus 1; every other path of the event
    ([_id], [title], [description], [category], [date], [time],
    [location], [imageUrl], [createdAt]), the other events, the users and
    the blogs are as they were at the [save].  It has decremented the
    stored [availableSeats] by exactly 1, and preserved
    [availableSeats + length registrations], exactly when the count stored
    at its [save] was the count it loaded.  That is so for a registration
    served with no other request in between. *)
Theorem successful_registration_effect :
  (∀ s0 s req id event,
     store_wf s0 →
     castObjectId (JStr (params_id req)) = Some id →
     events s0 !! id = Some event →
     isSafeInteger (availableSeats event) = true →
     let loaded := step (handle JWT_SECRET POST_events_id_register req) s0 in
     let c := step loaded.2 s in
     registered c.2 = true →
     loaded.1 = s0
     ∧ ∃ oid cur e',
         ObjectId_new (field req "userId") = Some oid
         ∧ events s !! id = Some cur
         ∧ events c.1 !! id = Some e'
         ∧ registrations e' = (registrations cur ++ [oid])%list
         ∧ __v e' = __v cur + 1
         ∧ availableSeats e' = availableSeats event - 1
         ∧ (e_id e' = e_id cur ∧ title e' = title cur
            ∧ description e' = description cur ∧ category e' = category cur
            ∧ date e' = date cur ∧ time e' = time cur
            ∧ location e' = location cur ∧ imageUrl e' = imageUrl cur
            ∧ createdAt e' = createdAt cur)
         ∧ (∀ k, k ≠ id → events c.1 !! k = events s !! k)
         ∧ users c.1 = users s
         ∧ blogs c.1 = blogs s
         ∧ (availableSeats cur = availableSeats event
            ↔ availableSeats e' = availableSeats cur - 1)
         ∧ (availableSeats cur = availableSeats event
            ↔ availableSeats e' + Z.of_nat (length (registrations e'))
              = availableSeats cur + Z.of_nat (length (registrations cur))))
  ∧ (∀ s req id e,
       store_wf s →
       castObjectId (JStr (params_id req)) = Some id →
       events s !! id = Some e →
       isSafeInteger (availableSeats e) = true →
       let x := run (handle JWT_SECRET POST_events_id_register req) s in
       registered_outcome (result x) = true →
       ∃ oid e',
         events (final_store x) !! id = Some e'
         ∧ availableSeats e' = availableSeats e - 1
         ∧ registrations e' = (registrations e ++ [oid])%list
         ∧ __v e' = __v e + 1
         ∧ (e_id e' = e_id e ∧ title e' = title e ∧ description e' = description e
            ∧ category e' = category e ∧ date e' = date e ∧ time e' = time e
            ∧ location e' = location e ∧ imageUrl e' = imageUrl e
            ∧ createdAt e' = createdAt e)
         ∧ availableSeats e' + Z.of_nat (length (registrations e'))
           = availableSeats e + Z.of_nat (length (registrations e))
         ∧ (∀ k, k ≠ id → events (final_store x) !! k = events s !! k)
         ∧ users (final_store x) = users s
         ∧ blogs (final_store x) = blogs s).
Proof.
  split.
  - intros s0 s req id event Hwf Hid He _ loaded c. subst c loaded.
    destruct (step_register_cases s0 req)
      as [Hs0 [(o & Ho & Hno)|(id' & event' & oid & k & Hid' & He' & Hseats & Hv & Hn
                               & Hk & Hok & Hko)]].
    { rewrite Ho. cbn [step snd]. unfold registered_outcome in Hno. congruence. }
    rewrite Hid in Hid'. injection Hid' as <-.
    rewrite He in He'. injection He' as <-.
    pose proof (Hwf _ _ He) as Hkey.
    intros Hreg. split; [done|]. revert Hreg.
    rewrite Hk. cbn [step]. unfold do_Event_save.
    destruct (validate (booked event oid)); [|cbn [snd]; by rewrite Hko].
    assert (e_id (booked event oid) = id) as -> by done.
    destruct (events s !! id) as [cur|] eqn:Hcur; [|cbn [snd]; by rewrite Hko].
    intros _. cbn [fst snd events users blogs set_events].
    exists oid, cur, (saved (booked event oid) [oid] cur).
    split; [done|]. split; [done|]. split; [by rewrite lookup_insert_eq|].
    split; [done|]. split; [done|]. split; [done|]. split; [done|].
    split; [intros j Hj; by rewrite lookup_insert_ne|].
    split; [done|]. split; [done|].
    cbn [saved booked availableSeats registrations set_availableSeats
         push_registration].
    rewrite length_app. cbn [length]. split; split; lia.
  - intros s req id e Hwf Hid He _ x. subst x.
    rewrite run_handle_register. intros Hr.
    destruct (run_register_first_cases s req)
      as [(_ & _ & Hno)|(event & oid & Hf & Hseats & Hv & Hn)]; [congruence|].
    destruct (findById_Some _ _ _ Hf) as (id' & Hid' & He').
    rewrite Hid in Hid'. injection Hid' as <-.
    rewrite He in He'. injection He' as <-.
    exists oid, (after_save (booked e oid)).
    rewrite (run_register_first_ok s req id e oid) by done.
    unfold final_store. cbn [fst snd events users blogs set_events].
    split; [by rewrite lookup_insert_eq|].
    split; [done|]. split; [done|]. split; [done|]. split; [done|].
    split; [simpl; rewrite length_app; simpl; lia|].
    split; [|done].
    intros k Hk. by rewrite lookup_insert_ne.
Qed.

(** C7 (amended).  The check of [userId] is the third step, after the
    event was loaded and its capacity checked, and it is a check of form
    only ([ObjectId.isValid]): no user is looked up.  For a call with an
    invalid [userId] the only store call is the [findById], no state is
    changed, and the answer is 500 "Error registering for event" when the
    id of the event cannot be cast to an ObjectId, 404 "Event not found"
    when there is no such event, 400 "No available seats" when the event
    has no seat left, and 400 "Invalid userId" otherwise. *)
Theorem invalid_userId_checked_after_capacity s req :
  let x := run (handle JWT_SECRET POST_events_id_register req) s in
  (ObjectId_isValid (field req "userId") = false →
   final_store x = s
   ∧ calls x = [Call_Event_findById (params_id req)]
   ∧ result x =
       match do_Event_findById (params_id req) s with
       | Rejected _ =>
           Responded {| status := 500; sent := Message "Error registering for event" |}
       | Fulfilled None =>
           Responded {| status := 404; sent := Message "Event not found" |}
       | Fulfilled (Some event) =>
           if availableSeats event <=? 0
           then Responded {| status := 400; sent := Message "No available seats" |}
           else Responded {| status := 400; sent := Message "Invalid userId" |}
       end)
  ∧ (do_Event_findById (params_id req) s = Rejected CastError
     ↔ castObjectId (JStr (params_id req)) = None)
  ∧ (∀ email, Call_User_findOne email ∉ calls x).
Proof.
  intros x. subst x. rewrite run_handle_register. split; [|split].
  - intros Hv. unfold register_first, run.
    destruct (do_Event_findById (params_id req) s) as [[event|]|]; [|done..].
    destruct (availableSeats event <=? 0); [done|].
    by rewrite Hv.
  - unfold do_Event_findById. by destruct (castObjectId _).
  - intros email. unfold register_first, run.
    destruct (do_Event_findById (params_id req) s) as [[event|]|]; [|not_called..].
    destruct (availableSeats event <=? 0); [not_called|].
    destruct (negb _); [not_called|].
    destruct (ObjectId_new (field req "userId")) as [oid|]; [|not_called].
    destruct (do_Event_save _ _ _) as [? [|]]; not_called.
Qed.

(** C9.  Two handlers are added for [POST /api/events/:id/register].
    Every request is answered by the first, which never calls [next()]: the
    second never runs.  The first leaves the store as it was for a [userId]
    that is not a valid ObjectId and answers 400 for an event that exists.
    The two differ: for such a [userId] on an event with a seat left the
    first answers 400 "Invalid userId", the second would not, and would
    save the value with no check beyond the cast of the array. *)
Theorem register_first_shadows_second :
  stack_of JWT_SECRET POST_events_id_register = [register_first; register_second]
  ∧ (∀ s req,
       run (handle JWT_SECRET POST_events_id_register req) s
       = run (register_first req) s)
  ∧ (∀ s req,
       ObjectId_isValid (field req "userId") = false →
       final_store (run (register_first req) s) = s
       ∧ ∀ event,
           do_Event_findById (params_id req) s = Fulfilled (Some event) →
           status_of (result (run (register_first req) s)) = Some 400)
  ∧ (∀ s req event,
       do_Event_findById (params_id req) s = Fulfilled (Some event) →
       0 < availableSeats event →
       ObjectId_isValid (field req "userId") = false →
       result (run (register_first req) s)
       = Responded {| status := 400; sent := Message "Invalid userId" |}
       ∧ result (run (register_second req) s) ≠ result (run (register_first req) s)
       ∧ ∀ oid,
           castObjectId (field req "userId") = Some oid →
           calls (run (register_second req) s)
           = [Call_Event_findById (params_id req);
              Call_Event_save (booked event oid) [oid]]).
Proof.
  split; [reflexivity|]. split; [intros s req; apply run_handle_register|]. split.
  - intros s req Hv. unfold register_first, run.
    destruct (do_Event_findById (params_id req) s) as [[event|]|].
    + destruct (availableSeats event <=? 0); [by split; [|intros ? _]|].
      rewrite Hv. by split; [|intros ? _].
    + by split.
    + by split.
  - intros s req event Hf Hseats Hv. unfold register_first, register_second, run.
    rewrite Hf.
    destruct (Z.leb_spec (availableSeats event) 0) as [|_]; [lia|].
    rewrite Hv. cbn [negb].
    split; [done|]. split.
    + destruct (castObjectId (field req "userId")) as [oid|]; [|done].
      by destruct (do_Event_save _ _ _) as [? [|]].
    + intros oid ->. by destruct (do_Event_save _ _ _) as [? [|]].
Qed.

(** ** Tokens and the authentication middleware *)

Lemma authenticate_verified req scheme token rest c :
  authorization req = Some (scheme :: token :: rest) →
  jwt_verify token (SECRET_KEY JWT_SECRET) (clock req) = inl c →
  authenticate JWT_SECRET req = Done (CalledNext (set_userId req (c_userId c))).
Proof.
  intros Ha Hv. unfold authenticate. rewrite Ha.
  assert ((scheme :: token :: rest) !! 1%nat = Some token) as -> by done.
  destruct token as [[|a w]|c' sig]; [done|..];
    (destruct scheme as [[|??]|]; by rewrite Hv).
Qed.

Lemma authenticate_refused req scheme token rest err :
  authorization req = Some (scheme :: token :: rest) →
  token ≠ Text "" →
  jwt_verify token (SECRET_KEY JWT_SECRET) (clock req) = inr err →
  authenticate JWT_SECRET req = respond 401 (Message "Invalid token").
Proof.
  intros Ha Hne Hv. unfold authenticate. rewrite Ha.
  assert ((scheme :: token :: rest) !! 1%nat = Some token) as -> by done.
  destruct token as [[|a w]|c' sig]; [done|..];
    (destruct scheme as [[|??]|]; by rewrite Hv).
Qed.

Lemma login_answers req : answers (login JWT_SECRET req).
Proof.
  intros [[user|]|]; simpl; auto.
  by destruct (bcrypt_compare _ _) as [[|]|].
Qed.

Lemma delete_blog_answers req : answers (delete_blog req).
Proof. by intros [[blog|]|]. Qed.

Lemma run_handle_login req s :
  run (handle JWT_SECRET POST_login req) s = run (login JWT_SECRET req) s.
Proof. exact (run_and_then_answers _ _ _ (login_answers req)). Qed.

Lemma jwt_verify_fresh id key now t :
  t < now + 3600 →
  jwt_verify (jwt_sign id key now) key t
  = inl {| c_userId := id; iat := now; exp := Some (now + 3600) |}.
Proof.
  intros Ht. unfold jwt_verify, jwt_sign, one_hour. cbn [exp].
  rewrite decide_True by done.
  destruct (Z.leb_spec (now + 3600) t); [lia|done].
Qed.

Lemma jwt_verify_expired id key now t :
  now + 3600 <= t →
  jwt_verify (jwt_sign id key now) key t = inr TokenExpiredError.
Proof.
  intros Ht. unfold jwt_verify, jwt_sign, one_hour. cbn [exp].
  rewrite decide_True by done.
  destruct (Z.leb_spec (now + 3600) t); [done|lia].
Qed.

(** C4.  A token issued at [now] for [id] carries [exp = now + 3600];
    verified with the same key at time [t] it gives back [id] when
    [t < now + 3600] and fails with [TokenExpiredError] when
    [now + 3600 <= t].  [authenticate] then passes [id] on to the handler,
    respectively answers 401; and such a token is what a successful login at
    [now] answers with. *)
Theorem token_round_trip id key now t :
  let c := {| c_userId := id; iat := now; exp := Some (now + 3600) |} in
  jwt_sign id key now = Jwt c (HS256 key c)
  ∧ (t < now + 3600 → jwt_verify (jwt_sign id key now) key t = inl c)
  ∧ (now + 3600 <= t → jwt_verify (jwt_sign id key now) key t = inr TokenExpiredError)
  ∧ (∀ req scheme,
       authorization req = Some [scheme; jwt_sign id (SECRET_KEY JWT_SECRET) now] →
       clock req = t →
       (t < now + 3600 →
        authenticate JWT_SECRET req = Done (CalledNext (set_userId req id)))
       ∧ (now + 3600 <= t →
          authenticate JWT_SECRET req = respond 401 (Message "Invalid token")))
  ∧ (∀ s req user,
       do_User_findOne (field req "email") s = Fulfilled (Some user) →
       bcrypt_compare (field req "password") (u_password user) = Some true →
       clock req = now →
       u_id user = id →
       result (run (handle JWT_SECRET POST_login req) s)
       = Responded {| status := 200;
                      sent := MessageToken "Login successful"
                                (jwt_sign id (SECRET_KEY JWT_SECRET) now) |}).
Proof.
  intros c.
  split; [done|]. split; [apply jwt_verify_fresh|].
  split; [apply jwt_verify_expired|]. split.
  - intros req scheme Ha Hc. split; intros Ht.
    + rewrite (authenticate_verified req _ _ _ c Ha); [done|].
      rewrite Hc. by apply jwt_verify_fresh.
    + apply (authenticate_refused req _ _ _ TokenExpiredError Ha); [done|].
      rewrite Hc. by apply jwt_verify_expired.
  - intros s req user Hf Hp Hc Hu. rewrite run_handle_login.
    unfold login, run. rewrite Hf, Hp, Hc, Hu. done.
Qed.

(** C6 (amended).  [jwt.verify] fails with [JsonWebTokenError] for a
    token it cannot parse and with [TokenExpiredError] for one past its
    expiry, but [authenticate] answers every failure of [jwt.verify] alike:
    401 "Invalid token".  The request is rejected before any handler of the
    route runs: no store call is made and the store is unchanged. *)
Theorem invalid_token_same_answer s req scheme token rest err handlers :
  authorization req = Some (scheme :: token :: rest) →
  token ≠ Text "" →
  jwt_verify token (SECRET_KEY JWT_SECRET) (clock req) = inr err →
  run (dispatch (authenticate JWT_SECRET :: handlers) req) s
  = (s, [], Responded {| status := 401; sent := Message "Invalid token" |})
  ∧ (∀ w key now, jwt_verify (Text w) key now = inr (JsonWebTokenError "jwt malformed"))
  ∧ (∀ id key now t,
       now + 3600 <= t → jwt_verify (jwt_sign id key now) key t = inr TokenExpiredError).
Proof.
  intros Ha Hne Hv. split; [|split].
  - cbn [dispatch]. by rewrite (authenticate_refused req _ _ _ err Ha Hne Hv).
  - done.
  - intros id key now t Ht. by apply jwt_verify_expired.
Qed.

(** ** Owned resources *)


(** ** Login *)

(** C8.  Of two failed logins, one for an email that no user has and one
    for an existing user, neither changes the store, and the first is
    answered 401 "Invalid email or password".  The second gets the same
    answer when [bcrypt.compare] finds that the password does not match.
    When [bcrypt.compare] fails instead (the request has no password, or
    one that is not a string), the second is answered 500 "Server error
    during login": the two answers differ, and tell that the account
    exists. *)
Theorem login_failure_tells_account s1 s2 r1 r2 user :
  do_User_findOne (field r1 "email") s1 = Fulfilled None →
  do_User_findOne (field r2 "email") s2 = Fulfilled (Some user) →
  let x1 := run (handle JWT_SECRET POST_login r1) s1 in
  let x2 := run (handle JWT_SECRET POST_login r2) s2 in
  result x1 = Responded {| status := 401; sent := Message "Invalid email or password" |}
  ∧ final_store x1 = s1
  ∧ final_store x2 = s2
  ∧ (bcrypt_compare (field r2 "password") (u_password user) = Some false →
     result x2 = result x1)
  ∧ (bcrypt_compare (field r2 "password") (u_password user) = None →
     result x2 = Responded {| status := 500; sent := Message "Server error during login" |}
     ∧ result x2 ≠ result x1).
Proof.
  intros H1 H2 x1 x2. subst x1 x2. rewrite !run_handle_login. unfold login, run.
  rewrite H1, H2. split; [done|]. split; [done|].
  split; [by destruct (bcrypt_compare _ _) as [[|]|]|].
  split; intros ->; [done|]. by split.
Qed.

End Properties.

(** C1, as stated, fails where [ObjectId(...)] of line 363 returns the
    ObjectId (mongoose 6 and earlier): an event is created with one seat;
    two requests load it before either saves; both are confirmed, and
    [registrations] holds two identities.  Where [ObjectId(...)] throws,
    the same requests under the same schedule are both refused. *)
Lemma oversold_by_interleaving :
  let pool := [handle None POST_events_id_register (register_request workshop_id (JStr alice));
               handle None POST_events_id_register (register_request workshop_id (JStr bob))] in
  let c := exec [0; 1; 0; 1]%nat (created 1, pool) in
  let pool' :=
    [@handle class_library None POST_events_id_register
       (register_request workshop_id (JStr alice));
     @handle class_library None POST_events_id_register
       (register_request workshop_id (JStr bob))] in
  let c' := @exec class_library [0; 1; 0; 1]%nat (created 1, pool') in
  seats_of (created 1) workshop_id = Some 1
  ∧ successes c.2 = 2%nat
  ∧ registrations <$> events c.1 !! workshop_id = Some [alice; bob]
  ∧ ¬ (Z.of_nat (successes c.2) <= 1)
  ∧ successes c'.2 = 0%nat
  ∧ c'.2 = [respond 500 (Message "Error registering for event");
            respond 500 (Message "Error registering for event")].
Proof.
  vm_compute. repeat split; try reflexivity. intros Hle. by apply Hle.
Qed.

(** The three parts of C1 (amended) on the event with one seat. *)
Lemma exec_registrations_seq_capacity_witness :
  seats_nonneg (exec [0; 1; 0; 1]%nat
    (created 1,
     [handle None POST_events_id_register (register_request workshop_id (JStr alice));
      handle None POST_events_id_register (register_request workshop_id (JStr bob))])).1
  ∧ Z.of_nat (successes_on workshop_id
      (run_seq (map (handle None POST_events_id_register)
                  [register_request workshop_id (JStr alice);
                   register_request workshop_id (JStr bob)]) (created 1)).2) <= 1
  ∧ successes (@exec class_library [0; 1; 0; 1]%nat
      (created 1,
       map (@handle class_library None POST_events_id_register)
         [register_request workshop_id (JStr alice);
          register_request workshop_id (JStr bob)])).2 = 0%nat.
Proof.
  split; [|split].
  - apply (proj1 (exec_registrations_seq_capacity None)).
    apply (bool_decide_unpack _). by vm_compute.
  - refine (proj1 (proj1 (proj2 (exec_registrations_seq_capacity None)) _ (created 1)
      workshop_id (workshop 1) _ _ _ _ _)).
    + apply (bool_decide_unpack _). by vm_compute.
    + by vm_compute.
    + by vm_compute.
    + by vm_compute.
    + by vm_compute.
  - refine (proj2 (proj2 (proj2 (@exec_registrations_seq_capacity class_library None))
      [0; 1; 0; 1]%nat (created 1)
      [register_request workshop_id (JStr alice);
       register_request workshop_id (JStr bob)] _)).
    apply Forall_cons; split; [reflexivity|].
    apply Forall_cons; split; [reflexivity|]. apply Forall_nil_2.
Defined.

(** C2, as stated, fails.  Where [ObjectId(...)] of line 363 returns the
    ObjectId, the registration makes a read call and then a write call,
    and another request is served in full between the two.  Where it
    throws, the registration makes a read call and no write at all.  In
    neither case is there one conditional update. *)
Lemma register_splits_read_and_write :
  let alice_req := register_request workshop_id (JStr alice) in
  let bob_req := register_request workshop_id (JStr bob) in
  let pool := [handle None POST_events_id_register alice_req;
               handle None POST_events_id_register bob_req] in
  let x := run (handle None POST_events_id_register alice_req) (created 1) in
  let x' := @run class_library
              (@handle class_library None POST_events_id_register alice_req)
              (created 1) in
  (calls x = [Call_Event_findById workshop_id;
              Call_Event_save (booked (workshop 1) alice) [alice]]
   ∧ map is_read (calls x) = [true; false]
   ∧ map is_write (calls x) = [false; true]
   ∧ next_call <$> (exec [0; 1; 1]%nat (created 1, pool)).2
     = [Some (Call_Event_save (booked (workshop 1) alice) [alice]); None]
   ∧ registrations <$> events (exec [0; 1; 1]%nat (created 1, pool)).1 !! workshop_id
     = Some [bob]
   ∧ successes (exec [0; 1; 1; 0]%nat (created 1, pool)).2 = 2%nat
   ∧ ¬ (length (calls x) <= 1)%nat)
  ∧ (calls x' = [Call_Event_findById workshop_id]
     ∧ map is_write (calls x') = [false]
     ∧ result x'
       = Responded {| status := 500; sent := Message "Error registering for event" |}
     ∧ final_store x' = created 1).
Proof. vm_compute. repeat split; try reflexivity. lia. Qed.

(** C2 (amended) on the event with one seat: the [save] where
    [ObjectId(...)] returns the ObjectId, the single read where it
    throws. *)
Lemma register_read_check_write_witness :
  (events (do_Event_save (booked (workshop 1) alice) [alice] (created 1)).1 !! workshop_id
   = Some (saved (booked (workshop 1) alice) [alice] (workshop 1))
   ∧ availableSeats (saved (booked (workshop 1) alice) [alice] (workshop 1)) = 0)
  ∧ calls (@run class_library
             (@handle class_library None POST_events_id_register
                (register_request workshop_id (JStr alice))) (created 1))
    = [Call_Event_findById workshop_id].
Proof.
  split.
  - apply (proj1 (proj2 (proj2 (proj2 (register_read_check_write None))))
             (booked (workshop 1) alice) [alice] (created 1) (workshop 1)).
    + reflexivity.
    + by vm_compute.
  - apply (proj1 (proj2 (@register_read_check_write class_library None))
             (created 1) (register_request workshop_id (JStr alice))).
    reflexivity.
Defined.

(** C3, as stated, fails.  Where [ObjectId(...)] of line 363 returns the
    ObjectId, on an event with three seats the same identity registers
    twice: both calls are confirmed and the seats go 3, 2, 1.  Where it
    throws, the second call of a registered identity is refused, with the
    answer that an identity not registered gets, and that says nothing of
    an earlier registration. *)
Lemma same_identity_registers_twice :
  let req := register_request workshop_id (JStr alice) in
  let served :=
    run_seq [handle None POST_events_id_register req;
             handle None POST_events_id_register req] (created 3) in
  let once := final_store (run (handle None POST_events_id_register req) (created 3)) in
  (map registered_outcome served.2 = [true; true]
   ∧ map status_of served.2 = [Some 200; Some 200]
   ∧ seats_of once workshop_id = Some 2
   ∧ seats_of served.1 workshop_id = Some 1
   ∧ registrations <$> events served.1 !! workshop_id = Some [alice; alice]
   ∧ ¬ (seats_of served.1 workshop_id = Some 2))
  ∧ (registrations <$> events once !! workshop_id = Some [alice]
     ∧ result (@run class_library
                 (@handle class_library None POST_events_id_register req) once)
       = Responded {| status := 500; sent := Message "Error registering for event" |}
     ∧ result (@run class_library
                 (@handle class_library None POST_events_id_register
                    (register_request workshop_id (JStr bob))) once)
       = Responded {| status := 500; sent := Message "Error registering for event" |}).
Proof. vm_compute. repeat split; try reflexivity. discriminate. Qed.

(** C3 (amended) on the second registration of that identity. *)
Lemma register_again_succeeds_witness :
  let req := register_request workshop_id (JStr alice) in
  let s := final_store (run (handle None POST_events_id_register req) (created 3)) in
  (result (run (handle None POST_events_id_register req) s)
   = Responded {| status := 200;
                  sent := MessageEvent "Registration successful"
                            (after_save
                               (booked (after_save (booked (workshop 3) alice)) alice)) |}
   ∧ registrations (after_save (booked (after_save (booked (workshop 3) alice)) alice))
     = [alice; alice])
  ∧ @run class_library (@handle class_library None POST_events_id_register req) s
    = (s, [Call_Event_findById workshop_id],
       Responded {| status := 500; sent := Message "Error registering for event" |}).
Proof.
  intros req s. split.
  - pose proof (proj1 (proj2 (register_again_succeeds None)) s req workshop_id
                  (after_save (booked (workshop 3) alice)) alice) as Hthm.
    split; [|reflexivity].
    apply Hthm.
    + apply (bool_decide_unpack _). by vm_compute.
    + reflexivity.
    + by vm_compute.
    + apply (bool_decide_unpack _). by vm_compute.
    + reflexivity.
    + reflexivity.
    + reflexivity.
    + reflexivity.
  - apply (proj2 (proj2 (@register_again_succeeds class_library None)) s req workshop_id
             (after_save (booked (workshop 3) alice))).
    + reflexivity.
    + by vm_compute.
    + reflexivity.
    + reflexivity.
    + reflexivity.
Defined.

(** C10, as stated, fails where [ObjectId(...)] of line 363 returns the
    ObjectId (where it throws, no registration is confirmed): on an event
    with two seats, two requests load it before either saves.  The second
    [save] is confirmed, and leaves the stored [availableSeats] at 1, where
    the first had put it; [availableSeats + length registrations] goes
    from 2 to 3.  And every confirmed [save], alone or not, changes one
    more path of the event: the version key. *)
Lemma confirmed_without_decrement :
  let pool := [handle None POST_events_id_register (register_request workshop_id (JStr alice));
               handle None POST_events_id_register (register_request workshop_id (JStr bob))] in
  let before := exec [0; 1; 0]%nat (created 2, pool) in
  let after := exec [0; 1; 0; 1]%nat (created 2, pool) in
  (events (created 2) !! workshop_id = Some (workshop 2)
   ∧ availableSeats (workshop 2) + Z.of_nat (length (registrations (workshop 2))) = 2
   ∧ __v (workshop 2) = 0)
  ∧ (registered <$> before.2 = [true; false]
     ∧ seats_of before.1 workshop_id = Some 1
     ∧ registrations <$> events before.1 !! workshop_id = Some [alice]
     ∧ __v <$> events before.1 !! workshop_id = Some 1)
  ∧ (registered <$> after.2 = [true; true]
     ∧ seats_of after.1 workshop_id = Some 1
     ∧ registrations <$> events after.1 !! workshop_id = Some [alice; bob]
     ∧ __v <$> events after.1 !! workshop_id = Some 2)
  ∧ ¬ (seats_of after.1 workshop_id = Some (1 - 1))
  ∧ ¬ (1 + Z.of_nat (length [alice; bob]) = 2).
Proof. vm_compute. repeat split; try reflexivity; discriminate. Qed.

(** C10 (amended) on the event with two seats: the second of two
    registrations that overlap, and a registration served alone. *)
Lemma successful_registration_effect_witness :
  let reqA := register_request workshop_id (JStr alice) in
  let reqB := register_request workshop_id (JStr bob) in
  let s := final_store (run (handle None POST_events_id_register reqA) (created 2)) in
  let c := step (step (handle None POST_events_id_register reqB) (created 2)).2 s in
  (∃ oid cur e',
     events s !! workshop_id = Some cur
     ∧ events c.1 !! workshop_id = Some e'
     ∧ registrations e' = (registrations cur ++ [oid])%list
     ∧ __v e' = __v cur + 1
     ∧ availableSeats e' = 2 - 1)
  ∧ ∃ oid e',
      events s !! workshop_id = Some e'
      ∧ availableSeats e' = 2 - 1
      ∧ registrations e' = ([] ++ [oid])%list
      ∧ __v e' = 0 + 1.
Proof.
  intros reqA reqB s c. split.
  - destruct (proj1 (successful_registration_effect None) (created 2) s reqB
                workshop_id (workshop 2))
      as (_ & oid & cur & e' & _ & H1 & H2 & H3 & H4 & H5 & _).
    + apply (bool_decide_unpack _). by vm_compute.
    + reflexivity.
    + by vm_compute.
    + reflexivity.
    + by vm_compute.
    + by exists oid, cur, e'.
  - destruct (proj2 (successful_registration_effect None) (created 2) reqA
                workshop_id (workshop 2))
      as (oid & e' & H1 & H2 & H3 & H4 & _).
    + apply (bool_decide_unpack _). by vm_compute.
    + reflexivity.
    + by vm_compute.
    + reflexivity.
    + by vm_compute.
    + by exists oid, e'.
Defined.

(** C7, as stated, fails: with no [userId] at all, on an event with no
    seat left, the answer is that of the capacity check; and a well-formed
    identifier of no stored user is not refused as a bad identity, whether
    [ObjectId(...)] of line 363 returns the ObjectId (the registration is
    confirmed) or throws (the answer is 500). *)
Lemma validation_after_capacity_check :
  let x := run (handle None POST_events_id_register
                  (register_request workshop_id JUndefined)) (created 0) in
  let y := run (handle None POST_events_id_register
                  (register_request workshop_id (JStr alice))) (created 1) in
  let y' := @run class_library
              (@handle class_library None POST_events_id_register
                 (register_request workshop_id (JStr alice))) (created 1) in
  (result x = Responded {| status := 400; sent := Message "No available seats" |}
   ∧ result x ≠ Responded {| status := 400; sent := Message "Invalid userId" |}
   ∧ calls x = [Call_Event_findById workshop_id])
  ∧ users (created 1) = []
  ∧ result y ≠ Responded {| status := 400; sent := Message "Invalid userId" |}
  ∧ result y' ≠ Responded {| status := 400; sent := Message "Invalid userId" |}.
Proof. vm_compute. repeat split; try reflexivity; discriminate. Qed.

(** C7 (amended) on a malformed [userId] and an event with a seat. *)
Lemma invalid_userId_checked_after_capacity_witness :
  result (run (handle None POST_events_id_register
                 (register_request workshop_id (JStr "nobody"))) (created 1))
  = Responded {| status := 400; sent := Message "Invalid userId" |}
  ∧ final_store (run (handle None POST_events_id_register
                        (register_request workshop_id (JStr "nobody"))) (created 1))
    = created 1.
Proof.
  destruct (proj1 (invalid_userId_checked_after_capacity None (created 1)
                     (register_request workshop_id (JStr "nobody"))))
    as (Hs & _ & Hr); [reflexivity|].
  split; [exact Hr | exact Hs].
Defined.

(** C9 on a malformed [userId] and the event with one seat. *)
Lemma register_first_shadows_second_witness :
  result (run (handle None POST_events_id_register
                 (register_request workshop_id (JStr "nobody"))) (created 1))
  = Responded {| status := 400; sent := Message "Invalid userId" |}
  ∧ result (run (register_second (register_request workshop_id (JStr "nobody")))
              (created 1))
    ≠ result (run (register_first (register_request workshop_id (JStr "nobody")))
                (created 1)).
Proof.
  destruct (register_first_shadows_second None) as (_ & Hfirst & _ & Hdiff).
  rewrite Hfirst.
  destruct (Hdiff (created 1) (register_request workshop_id (JStr "nobody"))
              (workshop 1)) as (H1 & H2 & _).
  - by vm_compute.
  - reflexivity.
  - reflexivity.
  - by split.
Defined.

(** C4 one second before the expiry and at the expiry. *)
Lemma token_round_trip_witness :
  jwt_verify (jwt_sign alice "k" 1000) "k" 4599
  = inl {| c_userId := alice; iat := 1000; exp := Some 4600 |}
  ∧ jwt_verify (jwt_sign alice "k" 1000) "k" 4600 = inr TokenExpiredError.
Proof.
  split.
  - apply (token_round_trip None alice "k" 1000 4599). lia.
  - apply (token_round_trip None alice "k" 1000 4600). lia.
Defined.

(** C6, as stated, fails: an expired token and a malformed one get the
    same answer on a protected route. *)
Lemma expired_and_malformed_same_answer :
  let expired := delete_request blog_id (jwt_sign bob (SECRET_KEY None) 0) 3600 in
  let malformed := delete_request blog_id (Text "not-a-token") 3600 in
  jwt_verify (jwt_sign bob (SECRET_KEY None) 0) (SECRET_KEY None) 3600
  = inr TokenExpiredError
  ∧ jwt_verify (Text "not-a-token") (SECRET_KEY None) 3600
    = inr (JsonWebTokenError "jwt malformed")
  ∧ result (run (handle None DELETE_blogs_id expired) members)
    = Responded {| status := 401; sent := Message "Invalid token" |}
  ∧ ¬ (result (run (handle None DELETE_blogs_id expired) members)
       ≠ result (run (handle None DELETE_blogs_id malformed) members)).
Proof. vm_compute. repeat split; try reflexivity. intros Hne. by apply Hne. Qed.

(** C6 (amended) on an expired token. *)
Lemma invalid_token_same_answer_witness :
  run (dispatch [authenticate None; delete_blog]
         (delete_request blog_id (jwt_sign bob (SECRET_KEY None) 0) 3600)) members
  = (members, [], Responded {| status := 401; sent := Message "Invalid token" |}).
Proof.
  apply (invalid_token_same_answer None members
           (delete_request blog_id (jwt_sign bob (SECRET_KEY None) 0) 3600)
           (Text "Bearer") (jwt_sign bob (SECRET_KEY None) 0) [] TokenExpiredError
           [delete_blog]).
  - reflexivity.
  - discriminate.
  - reflexivity.
Defined.



(** C8 on two logins that send no password: one for Alice, a member, and
    one for Carol, a stranger. *)
Lemma login_failure_tells_account_witness :
  result (run (handle None POST_login (email_only_request "alice@example.org")) members)
  = Responded {| status := 500; sent := Message "Server error during login" |}
  ∧ result (run (handle None POST_login (email_only_request "carol@example.org")) members)
    = Responded {| status := 401; sent := Message "Invalid email or password" |}
  ∧ result (run (handle None POST_login (email_only_request "alice@example.org")) members)
    ≠ result (run (handle None POST_login (email_only_request "carol@example.org")) members).
Proof.
  destruct (login_failure_tells_account None members members
              (email_only_request "carol@example.org")
              (email_only_request "alice@example.org")
              {| u_id := alice; u_name := "Alice"; u_email := "alice@example.org";
                 u_number := "1"; u_password := toy_hash "correct horse" |})
    as (H401 & _ & _ & _ & Hleak).
  - by vm_compute.
  - by vm_compute.
  - destruct Hleak as [H500 Hdiff]; [by vm_compute|].
    split; [exact H500|]. split; [exact H401 | exact Hdiff].
Defined.

(** * Further properties of the handlers *)

Section Further.

Context `{Library}.

Variable JWT_SECRET : option string.

(** ** The authentication middleware *)

(** How [authenticate] ends: with a 401, or with [next()] on a token the
    server key signed and that is not past its expiry. *)
Lemma authenticate_cases req :
  (∃ r, authenticate JWT_SECRET req = Done (Responded r) ∧ status r = 401)
  ∨ ∃ scheme c rest,
      authorization req
      = Some (scheme :: Jwt c (HS256 (SECRET_KEY JWT_SECRET) c) :: rest)
      ∧ (∀ e, exp c = Some e → clock req < e)
      ∧ authenticate JWT_SECRET req
        = Done (CalledNext (set_userId req (c_userId c))).
Proof.
  unfold authenticate.
  destruct (authorization req) as [[|scheme [|token rest]]|] eqn:Ha;
    [left; eexists; by split| |..].
  - destruct scheme as [[|??]|]; left; eexists; by split.
  - assert ((scheme :: token :: rest) !! 1%nat = Some token) as Hl by done.
    assert (∀ p : prog,
              match scheme :: token :: rest with
              | [] | [Text ""] => respond 401 (Message "Authentication required")
              | _ => p
              end = p) as -> by (by destruct scheme as [[|??]|]).
    rewrite Hl. destruct token as [[|a w]|c sig].
    + left; eexists; by split.
    + left; eexists; by split.
    + unfold jwt_verify.
      destruct (decide (sig = HS256 (SECRET_KEY JWT_SECRET) c)) as [->|];
        [|left; eexists; by split].
      destruct (exp c) as [e|] eqn:He.
      * destruct (Z.leb_spec e (clock req)); [left; eexists; by split|].
        right. exists scheme, c, rest. split; [done|]. split; [|done].
        intros e' ?. by simplify_eq.
      * right. exists scheme, c, rest. split; [done|]. split; [|done].
        intros e' ?. by simplify_eq.
  - left; eexists; by split.
Qed.

Lemma authenticate_signed req scheme c rest :
  authorization req
  = Some (scheme :: Jwt c (HS256 (SECRET_KEY JWT_SECRET) c) :: rest) →
  (∀ e, exp c = Some e → clock req < e) →
  authenticate JWT_SECRET req = Done (CalledNext (set_userId req (c_userId c))).
Proof.
  intros Ha He.
  apply (authenticate_verified JWT_SECRET req scheme _ rest c Ha).
  unfold jwt_verify. rewrite decide_True by done.
  destruct (exp c) as [e|]; [|done].
  destruct (Z.leb_spec e (clock req)) as [Hle|]; [|done].
  specialize (He e eq_refl). lia.
Qed.


(** X2.  A request with no [Authorization] header, with a header of one
    word only (a bare token, a bare scheme, the empty header), or with an
    empty second word, is answered 401 "Authentication required"; no
    handler of the route runs, whatever the route. *)
Theorem authenticate_missing_token handlers req s :
  (authorization req = None
   ∨ (∃ w, authorization req = Some [w])
   ∨ ∃ scheme rest, authorization req = Some (scheme :: Text "" :: rest)) →
  run (dispatch (authenticate JWT_SECRET :: handlers) req) s
  = (s, [], Responded {| status := 401; sent := Message "Authentication required" |}).
Proof.
  intros Hh. cbn [dispatch].
  assert (authenticate JWT_SECRET req
          = respond 401 (Message "Authentication required")) as ->; [|done].
  unfold authenticate.
  destruct Hh as [->|[[w ->]|(scheme & rest & ->)]]; [done| |].
  - by destruct w as [[|??]|].
  - by destruct scheme as [[|??]|].
Qed.

(** X3.  When the environment gives no [JWT_SECRET], or an empty one, the
    server key is the literal of line 12: a token that anyone signs with
    "your-secret-key", for any identity, passes [authenticate]. *)
Theorem default_key_accepts_forged_token req scheme c rest :
  JWT_SECRET = None ∨ JWT_SECRET = Some "" →
  authorization req = Some (scheme :: Jwt c (HS256 "your-secret-key" c) :: rest) →
  (∀ e, exp c = Some e → clock req < e) →
  authenticate JWT_SECRET req = Done (CalledNext (set_userId req (c_userId c))).
Proof.
  intros Hk Ha He.
  assert (SECRET_KEY JWT_SECRET = "your-secret-key") as Hkey
    by (by destruct Hk as [->| ->]).
  apply (authenticate_signed req scheme c rest); [|done].
  by rewrite Hkey.
Qed.

(** ** Deleting a blog *)


Lemma run_delete_passed req s req' :
  authenticate JWT_SECRET req = Done (CalledNext req') →
  run (handle JWT_SECRET DELETE_blogs_id req) s = run (delete_blog req') s.
Proof.
  intros Ha. unfold handle.
  change (stack_of JWT_SECRET DELETE_blogs_id)
    with [authenticate JWT_SECRET; delete_blog].
  cbn [dispatch]. rewrite Ha. cbn [and_then].
  apply run_and_then_answers, delete_blog_answers.
Qed.

(** X4.  The author of a blog, with a token the server accepts (the
    author stored with the blog is the ObjectId that the [userId] of the
    token is cast to), deletes it: the answer is 200 "Blog deleted", the
    blog is gone and nothing else in the store has changed; the same
    request sent again is answered 404 "Blog not found" and changes
    nothing. *)
Theorem delete_by_author s req scheme c rest id blog a :
  authorization req
  = Some (scheme :: Jwt c (HS256 (SECRET_KEY JWT_SECRET) c) :: rest) →
  (∀ e, exp c = Some e → clock req < e) →
  castObjectId (JStr (params_id req)) = Some id →
  blogs s !! id = Some blog →
  castObjectId (JStr (c_userId c)) = Some a →
  b_author blog = Some a →
  let x := run (handle JWT_SECRET DELETE_blogs_id req) s in
  result x = Responded {| status := 200; sent := Message "Blog deleted" |}
  ∧ blogs (final_store x) = delete id (blogs s)
  ∧ users (final_store x) = users s
  ∧ events (final_store x) = events s
  ∧ run (handle JWT_SECRET DELETE_blogs_id req) (final_store x)
    = (final_store x,
       [Call_Blog_findOneAndDelete (params_id req) (Some (c_userId c))],
       Responded {| status := 404; sent := Message "Blog not found" |}).
Proof.
  intros Ha He Hid Hb Hcast Hau x. subst x.
  pose proof (authenticate_signed req scheme c rest Ha He) as Hpass.
  rewrite !(run_delete_passed req _ _ Hpass).
  assert (run (delete_blog (set_userId req (c_userId c))) s
          = (set_blogs s (delete id (blogs s)),
             [Call_Blog_findOneAndDelete (params_id req) (Some (c_userId c))],
             Responded {| status := 200; sent := Message "Blog deleted" |})) as ->.
  { unfold delete_blog, run, do_Blog_findOneAndDelete.
    cbn [params_id userId set_userId]. rewrite Hid, Hcast.
    cbn [fmap option_fmap option_map]. rewrite Hb, Hau.
    by rewrite decide_True by done. }
  unfold final_store, result. cbn [fst snd blogs users events set_blogs].
  repeat (split; [done|]).
  unfold delete_blog, run, do_Blog_findOneAndDelete.
  cbn [params_id userId set_userId blogs set_blogs].
  rewrite Hid, Hcast. cbn [fmap option_fmap option_map].
  by rewrite lookup_delete_eq.
Qed.


(** ** Answers of the login *)

(** X6.  [POST /api/login] never changes the store, and it answers 200
    only when a stored user matches the email of the request and
    [bcrypt.compare] accepted the password against that user's hash.  A
    user matches when its email is the value of the request cast to a
    string; or, for a value that is an object of query operators such as
    [{ "$gt": "" }], when its email satisfies the operators; or, for a
    value that is an array, when its email is an element of the array:
    the request need not name the email.  The answer then carries a token
    for that user's [_id], signed with the server key, expiring one hour
    after the request. *)
Theorem login_only_for_stored_user s req :
  let x := run (handle JWT_SECRET POST_login req) s in
  final_store x = s
  ∧ (status_of (result x) = Some 200 →
     ∃ user,
       user ∈ users s
       ∧ (castString (field req "email") = Some (u_email user)
          ∨ (∃ members satisfies,
               field req "email" = JObject members
               ∧ castString (JObject members) = None
               ∧ query_String (JObject members) = Some satisfies
               ∧ satisfies (u_email user) = true)
          ∨ (∃ items among,
               field req "email" = JArray items
               ∧ castString (JArray items) = None
               ∧ mapM castString items = Some among
               ∧ u_email user ∈ among))
       ∧ bcrypt_compare (field req "password") (u_password user) = Some true
       ∧ result x
         = Responded
             {| status := 200;
                sent := MessageToken "Login successful"
                  (Jwt {| c_userId := u_id user; iat := clock req;
                          exp := Some (clock req + 3600) |}
                       (HS256 (SECRET_KEY JWT_SECRET)
                          {| c_userId := u_id user; iat := clock req;
                             exp := Some (clock req + 3600) |})) |}).
Proof.
  intros x. subst x. rewrite run_handle_login. unfold login, run, do_User_findOne.
  destruct (field req "email") as [| |b|n|e|items|ops] eqn:Hemail; try (by split).
  all: destruct (castString _) as [a|] eqn:Hcast; [|try (by split)].
  all: try (destruct (List.find (λ u, String.eqb _ _) (users s)) as [user|] eqn:Hfind;
            [|by split];
            apply find_some in Hfind as [Hin Heq]; apply String.eqb_eq in Heq;
            destruct (bcrypt_compare _ _) as [[|]|] eqn:Hc; [|by split..];
            split; [done|]; intros _; exists user;
            split; [by apply list_elem_of_In|]; split; [|by split];
            left; congruence).
  - destruct (mapM castString items) as [among|] eqn:Hamong; [|by split].
    destruct (List.find _ (users s)) as [user|] eqn:Hfind; [|by split].
    apply find_some in Hfind as [Hin Hmem]. apply bool_decide_eq_true in Hmem.
    destruct (bcrypt_compare _ _) as [[|]|] eqn:Hc; [|by split..].
    split; [done|]. intros _. exists user.
    split; [by apply list_elem_of_In|]. split; [|by split].
    right. right. by exists items, among.
  - destruct (query_String (JObject ops)) as [satisfies|] eqn:Hq; [|by split].
    destruct (List.find _ (users s)) as [user|] eqn:Hfind; [|by split].
    apply find_some in Hfind as [Hin Hsat].
    destruct (bcrypt_compare _ _) as [[|]|] eqn:Hc; [|by split..].
    split; [done|]. intros _. exists user.
    split; [by apply list_elem_of_In|]. split; [|by split].
    right. left. by exists ops, satisfies.
Qed.

(** ** Creating an event *)

Lemma create_event_answers req : answers (create_event req).
Proof.
  unfold create_event. destruct (new_Event req); [|done]. by intros [|].
Qed.

Lemma run_handle_create req s :
  run (handle JWT_SECRET POST_events req) s = run (create_event req) s.
Proof. exact (run_and_then_answers _ _ _ (create_event_answers req)). Qed.

Lemma new_Event_fields req doc :
  new_Event req = Some doc →
  e_id doc = fresh_id req
  ∧ registrations doc = []
  ∧ category doc ∈ categories
  ∧ title doc ≠ ""
  ∧ (∀ n, castNumber (field req "availableSeats") = Some n → availableSeats doc = n).
Proof.
  unfold new_Event. intros Hn.
  repeat (apply bind_Some in Hn as (? & ? & Hn)).
  injection Hn as <-. cbn.
  split; [done|]. split; [done|]. split; [done|]. split.
  - match goal with Ht : required (field req "title") = Some _ |- _ =>
      unfold required in Ht; repeat case_match; by simplify_eq end.
  - intros n Hcast. repeat case_match; congruence.
Qed.

(** X7.  [POST /api/events] answers 201 only after it stored, under a new
    [_id], a document with no registration, a seat count that is not
    negative, a title that is not empty and a category of the [enum];
    every other event is as before, and [findById] on the new [_id] then
    gives that document.  With any other answer the store is unchanged.
    Users and blogs are never touched. *)
Theorem create_event_stores_fresh_event s req :
  let x := run (handle JWT_SECRET POST_events req) s in
  users (final_store x) = users s
  ∧ blogs (final_store x) = blogs s
  ∧ (status_of (result x) ≠ Some 201 → final_store x = s)
  ∧ (status_of (result x) = Some 201 →
     ∃ doc,
       result x = Responded {| status := 201;
                               sent := MessageEvent "Event created successfully" doc |}
       ∧ e_id doc = fresh_id req
       ∧ registrations doc = []
       ∧ 0 <= availableSeats doc
       ∧ title doc ≠ ""
       ∧ category doc ∈ categories
       ∧ events s !! fresh_id req = None
       ∧ events (final_store x) = <[fresh_id req := doc]> (events s)
       ∧ (castObjectId (JStr (fresh_id req)) = Some (fresh_id req) →
          do_Event_findById (fresh_id req) (final_store x) = Fulfilled (Some doc))).
Proof.
  intros x. subst x. rewrite run_handle_create.
  assert ((∃ cs r, run (create_event req) s = (s, cs, Responded r) ∧ status r = 500)
          ∨ ∃ doc,
              new_Event req = Some doc
              ∧ 0 <= availableSeats doc
              ∧ events s !! e_id doc = None
              ∧ run (create_event req) s
                = (set_events s (<[e_id doc := doc]> (events s)),
                   [Call_Event_insert doc],
                   Responded {| status := 201;
                                sent := MessageEvent "Event created successfully" doc |}))
    as [(cs & r & -> & Hr)|(doc & Hnew & Hpos & Hold & ->)].
  { unfold create_event.
    destruct (new_Event req) as [doc|] eqn:Hnew; [|left; by eexists _, _].
    unfold run, do_Event_insert, validate.
    destruct (Z.leb_spec 0 (availableSeats doc)) as [Hpos|]; [|left; by eexists _, _].
    destruct (events s !! e_id doc) as [old|] eqn:Hold; [left; by eexists _, _|].
    right. by exists doc. }
  - unfold final_store, result. cbn [fst snd status_of]. rewrite Hr.
    by repeat split.
  - destruct (new_Event_fields req doc Hnew) as (Hid & Hregs & Hcat & Htitle & _).
    unfold final_store, result.
    cbn [fst snd users blogs events set_events status_of status].
    split; [done|]. split; [done|]. split; [done|]. intros _.
    exists doc. rewrite <- Hid.
    repeat (split; [done|]).
    intros Hcast. unfold do_Event_findById. rewrite Hcast. cbn [events set_events].
    by rewrite lookup_insert_eq.
Qed.

(** X8.  [POST /api/events] with an [availableSeats] that casts to a
    negative number is answered 500 "Error creating event" and stores
    nothing. *)
Theorem create_event_refuses_negative_seats s req n :
  castNumber (field req "availableSeats") = Some n →
  n < 0 →
  result (run (handle JWT_SECRET POST_events req) s)
  = Responded {| status := 500; sent := Message "Error creating event" |}
  ∧ final_store (run (handle JWT_SECRET POST_events req) s) = s.
Proof.
  intros Hcast Hneg. rewrite run_handle_create. unfold create_event.
  destruct (new_Event req) as [doc|] eqn:Hnew; [|done].
  destruct (new_Event_fields req doc Hnew) as (_ & _ & _ & _ & Hseats).
  specialize (Hseats n Hcast).
  unfold run, do_Event_insert, validate.
  destruct (Z.leb_spec 0 (availableSeats doc)); [lia|done].
Qed.

(** ** Registrations *)

(** X9.  A registration that is not confirmed (unknown event, no seat
    left, invalid [userId], a failed save) leaves the whole store as it
    was; and no registration, confirmed or not, touches users or blogs. *)
Theorem registration_not_confirmed_no_effect s req :
  let x := run (handle JWT_SECRET POST_events_id_register req) s in
  users (final_store x) = users s
  ∧ blogs (final_store x) = blogs s
  ∧ (registered_outcome (result x) = false → final_store x = s).
Proof.
  intros x. subst x. rewrite run_handle_register.
  unfold register_first, run.
  destruct (do_Event_findById (params_id req) s) as [[event|]|]; [|done..].
  destruct (availableSeats event <=? 0); [done|].
  destruct (negb _); [done|].
  destruct (ObjectId_new _) as [oid|]; [|done].
  unfold do_Event_save.
  destruct (validate _); [|done].
  destruct (events s !! _); done.
Qed.

Lemma run_register_first_sold_out s req id event :
  castObjectId (JStr (params_id req)) = Some id →
  events s !! id = Some event →
  availableSeats event <= 0 →
  run (register_first req) s
  = (s, [Call_Event_findById (params_id req)],
     Responded {| status := 400; sent := Message "No available seats" |}).
Proof.
  intros Hid He Hs. unfold register_first, run, do_Event_findById.
  rewrite Hid, He.
  by destruct (Z.leb_spec (availableSeats event) 0) as [_|]; [|lia].
Qed.

Lemma run_seq_sell_out reqs : ∀ s id e,
  store_wf s →
  events s !! id = Some e →
  0 <= availableSeats e →
  Forall (λ req, castObjectId (JStr (params_id req)) = Some id
                 ∧ ObjectId_isValid (field req "userId") = true
                 ∧ is_Some (ObjectId_new (field req "userId"))) reqs →
  let served := run_seq (map (handle JWT_SECRET POST_events_id_register) reqs) s in
  Forall (λ o, e_id <$> registered_event o = Some id)
    (take (Z.to_nat (availableSeats e)) served.2)
  ∧ Forall (λ o, o = Responded {| status := 400;
                                  sent := Message "No available seats" |})
      (drop (Z.to_nat (availableSeats e)) served.2)
  ∧ length served.2 = length reqs.
Proof.
  induction reqs as [|req reqs IH]; intros s id e Hwf He Hpos Hall served; subst served.
  - cbn [map run_seq snd]. rewrite take_nil, drop_nil. by repeat split.
  - rewrite map_cons, run_seq_cons, run_handle_register. cbn [snd].
    apply Forall_cons in Hall as [(Hid & Hv & [oid Hn]) Hall].
    destruct (decide (availableSeats e = 0)) as [Hz|Hnz].
    + rewrite (run_register_first_sold_out s req id e) by (done || lia).
      unfold final_store, result. cbn [fst snd].
      destruct (IH s id e Hwf He Hpos Hall) as (_ & Hdrop & Hlen).
      rewrite Hz in *. cbn [Z.to_nat take drop] in *.
      split; [done|]. split; [by apply Forall_cons|]. cbn [length]. by rewrite Hlen.
    + rewrite (run_register_first_ok s req id e oid) by (done || lia).
      unfold final_store, result. cbn [fst snd].
      pose proof (Hwf _ _ He) as Hk.
      destruct (IH (set_events s (<[id := after_save (booked e oid)]> (events s))) id
                  (after_save (booked e oid)))
        as (Htake & Hdrop & Hlen); try done.
      * by apply store_wf_insert.
      * cbn [events set_events]. by rewrite lookup_insert_eq.
      * cbn. lia.
      * assert (Z.to_nat (availableSeats e)
                = S (Z.to_nat (availableSeats (after_save (booked e oid))))) as ->
          by (cbn; lia).
        cbn [take drop length]. split; [|split; [done|by rewrite Hlen]].
        apply Forall_cons. split; [|done]. cbn. by rewrite Hk.
Qed.

Lemma run_seq_thrown reqs s id e :
  events s !! id = Some e →
  0 < availableSeats e →
  Forall (λ req, castObjectId (JStr (params_id req)) = Some id
                 ∧ ObjectId_isValid (field req "userId") = true
                 ∧ ObjectId_new (field req "userId") = None) reqs →
  run_seq (map (handle JWT_SECRET POST_events_id_register) reqs) s
  = (s, map (λ _, Responded {| status := 500;
                               sent := Message "Error registering for event" |}) reqs).
Proof.
  intros He Hseats. induction 1 as [|req reqs (Hid & Hv & Hn) _ IH]; [done|].
  rewrite map_cons, run_seq_cons, run_handle_register.
  rewrite (run_register_first_thrown s req id e) by done.
  unfold final_store, result. cbn [fst snd]. by rewrite IH.
Qed.

(** X10.  On an event with [n] seats, a safe integer, registrations with
    a valid [userId] are served one after the other.  Where
    [mongoose.Types.ObjectId], called without [new] at line 363, returns
    the ObjectId of each, they are confirmed until the seats are gone and
    answered 400 "No available seats" from then on: of [k] such
    registrations exactly [min n k] are confirmed, the first ones, and
    [availableSeats] ends at [n - min n k].  Where that call throws and
    [n] is not 0, every one of them is answered 500 "Error registering for
    event" and the store stays as it was. *)
Theorem registrations_sell_out reqs s id e :
  store_wf s →
  events s !! id = Some e →
  0 <= availableSeats e →
  isSafeInteger (availableSeats e) = true →
  let served := run_seq (map (handle JWT_SECRET POST_events_id_register) reqs) s in
  let n := Z.to_nat (availableSeats e) in
  (Forall (λ req, castObjectId (JStr (params_id req)) = Some id
                  ∧ ObjectId_isValid (field req "userId") = true
                  ∧ is_Some (ObjectId_new (field req "userId"))) reqs →
   Forall (λ o, e_id <$> registered_event o = Some id) (take n served.2)
   ∧ Forall (λ o, o = Responded {| status := 400;
                                   sent := Message "No available seats" |})
       (drop n served.2)
   ∧ length served.2 = length reqs
   ∧ successes_on id served.2 = (n `min` length reqs)%nat
   ∧ availableSeats <$> events served.1 !! id
     = Some (availableSeats e - Z.of_nat (n `min` length reqs)))
  ∧ (Forall (λ req, castObjectId (JStr (params_id req)) = Some id
                    ∧ ObjectId_isValid (field req "userId") = true
                    ∧ ObjectId_new (field req "userId") = None) reqs →
     0 < availableSeats e →
     served.1 = s
     ∧ Forall (λ o, o = Responded {| status := 500;
                                     sent := Message "Error registering for event" |})
         served.2
     ∧ length served.2 = length reqs
     ∧ successes_on id served.2 = 0%nat).
Proof.
  intros Hwf He Hpos _ served n. split.
  - intros Hall.
    destruct (run_seq_sell_out reqs s id e Hwf He Hpos Hall) as (Htake & Hdrop & Hlen).
    fold served in Htake, Hdrop, Hlen. fold n in Htake, Hdrop.
    destruct (run_seq_register JWT_SECRET reqs s id e Hwf He)
      as (e' & He' & Hseats & _ & _).
    fold served in He', Hseats.
    assert (successes_on id served.2 = (n `min` length reqs)%nat) as Hcount.
    { unfold successes_on. rewrite <- (take_drop n served.2) at 1.
      rewrite filter_app, length_app.
      assert (filter (λ o, e_id <$> registered_event o = Some id) (drop n served.2) = [])
        as ->.
      { induction Hdrop as [|o l -> _ IHl]; [done|].
        by rewrite filter_cons_False. }
      assert (filter (λ o, e_id <$> registered_event o = Some id) (take n served.2)
              = take n served.2) as ->.
      { induction Htake as [|o l Ho _ IHl]; [done|].
        by rewrite filter_cons_True, IHl. }
      cbn [length]. rewrite Nat.add_0_r, length_take, Hlen. done. }
    repeat (split; [done|]).
    rewrite He'. cbn. by rewrite Hseats, Hcount.
  - intros Hall Hseats. subst served.
    rewrite (run_seq_thrown reqs s id e He Hseats Hall). cbn [fst snd].
    split; [done|]. split; [by apply Forall_map, Forall_true|].
    split; [by rewrite length_map|].
    unfold successes_on. clear Hall. induction reqs as [|req reqs IH]; [done|].
    rewrite map_cons, filter_cons_False by done. exact IH.
Qed.

(** ** Requests in flight together *)

Lemma grown_refl e : grown e e.
Proof. split; [exists []; by rewrite app_nil_r | done]. Qed.

Lemma grown_trans e1 e2 e3 : grown e1 e2 → grown e2 e3 → grown e1 e3.
Proof.
  intros ([x1 Hx1] & ? & ? & ? & ? & ? & ? & ? & ? & ?)
         ([x2 Hx2] & ? & ? & ? & ? & ? & ? & ? & ? & ?).
  split; [exists (x1 ++ x2)%list; by rewrite Hx2, Hx1, app_assoc|].
  repeat split; congruence.
Qed.

Lemma grown_saved doc pushed cur : grown cur (saved doc pushed cur).
Proof. split; [by exists pushed | done]. Qed.

Lemma step_grown p s id e :
  events s !! id = Some e →
  ∃ e', events (step p s).1 !! id = Some e' ∧ grown e e'.
Proof.
  intros He.
  destruct p as [o|em k|i a k|i k|d ps k|d k]; cbn [step fst];
    try (exists e; split; [done | apply grown_refl]).
  - pose proof (do_Blog_findOneAndDelete_events i a s) as E.
    destruct (do_Blog_findOneAndDelete i a s) as [s' r]. cbn [fst] in *.
    rewrite E. exists e. split; [done | apply grown_refl].
  - unfold do_Event_save.
    destruct (validate d); [|exists e; split; [done | apply grown_refl]].
    destruct (events s !! e_id d) as [cur|] eqn:Hcur;
      [|exists e; split; [done | apply grown_refl]].
    cbn [fst events set_events]. rewrite lookup_insert.
    case_decide as Hk; [|exists e; split; [done | apply grown_refl]].
    subst id. rewrite He in Hcur. injection Hcur as <-.
    eexists. split; [done | apply grown_saved].
  - unfold do_Event_insert.
    destruct (validate d); [|exists e; split; [done | apply grown_refl]].
    destruct (events s !! e_id d) as [cur|] eqn:Hcur;
      [exists e; split; [done | apply grown_refl]|].
    cbn [fst events set_events]. rewrite lookup_insert.
    case_decide as Hk; [congruence|]. exists e. split; [done | apply grown_refl].
Qed.

(** X11.  Whatever requests are in flight and however their store calls
    are interleaved, a stored event stays stored, its [registrations] only
    grow at the end (no registrant is ever removed or replaced) and its
    descriptive fields never change. *)
Theorem exec_events_only_grow schedule s pool id e :
  events s !! id = Some e →
  ∃ e', events (exec schedule (s, pool)).1 !! id = Some e' ∧ grown e e'.
Proof.
  revert s pool e. induction schedule as [|i schedule IH]; intros s pool e He.
  - exists e. split; [done | apply grown_refl].
  - change (exec (i :: schedule) (s, pool))
      with (exec schedule (step_at i (s, pool))).
    unfold step_at. cbn [fst snd].
    destruct (pool !! i) as [p|]; [|by apply IH].
    destruct (step_grown p s id e He) as (e1 & He1 & Hg1).
    destruct (step p s) as [s1 p1]. cbn [fst] in He1.
    destruct (IH s1 (<[i := p1]> pool) e1 He1) as (e' & He' & Hg').
    exists e'. split; [exact He' | by apply (grown_trans e e1 e')].
Qed.

Lemma step_register_load s req id e oid :
  castObjectId (JStr (params_id req)) = Some id →
  events s !! id = Some e →
  0 < availableSeats e →
  ObjectId_isValid (field req "userId") = true →
  ObjectId_new (field req "userId") = Some oid →
  ∃ k,
    step (handle JWT_SECRET POST_events_id_register req) s
    = (s, Event_save (booked e oid) [oid] k)
    ∧ k (Fulfilled ())
      = respond 200 (MessageEvent "Registration successful" (after_save (booked e oid))).
Proof.
  intros Hid He Hseats Hv Hn. unfold handle. rewrite stack_of_register.
  change (dispatch [register_first; register_second] req)
    with (and_then (register_first req) (dispatch [register_second])).
  rewrite step_and_then by apply register_first_answers.
  unfold register_first, step, do_Event_findById. cbn [fst snd].
  rewrite Hid, He.
  destruct (Z.leb_spec (availableSeats e) 0) as [|_]; [lia|].
  rewrite Hv, Hn. cbn [negb and_then]. eexists. split; [reflexivity|]. done.
Qed.

Lemma step_at_first s p q :
  step_at 0 (s, [p; q]) = ((step p s).1, [(step p s).2; q]).
Proof. unfold step_at. cbn. by destruct (step p s). Qed.

Lemma step_at_second s p q :
  step_at 1 (s, [p; q]) = ((step q s).1, [p; (step q s).2]).
Proof. unfold step_at. cbn. by destruct (step q s). Qed.

Lemma step_register_thrown s req id e :
  castObjectId (JStr (params_id req)) = Some id →
  events s !! id = Some e →
  0 < availableSeats e →
  ObjectId_isValid (field req "userId") = true →
  ObjectId_new (field req "userId") = None →
  step (handle JWT_SECRET POST_events_id_register req) s
  = (s, respond 500 (Message "Error registering for event")).
Proof.
  intros Hid He Hseats Hv Hn. unfold handle. rewrite stack_of_register.
  change (dispatch [register_first; register_second] req)
    with (and_then (register_first req) (dispatch [register_second])).
  rewrite step_and_then by apply register_first_answers.
  unfold register_first, step, do_Event_findById. cbn [fst snd].
  rewrite Hid, He.
  destruct (Z.leb_spec (availableSeats e) 0) as [|_]; [lia|].
  by rewrite Hv, Hn.
Qed.

(** X12.  Two registrations for the same event, with a seat left (the
    count a safe integer) and valid [userId]s, that both load the event
    before either saves.  Where [mongoose.Types.ObjectId], called without
    [new] at line 363, returns the ObjectId of each, both are confirmed,
    each answer shows one seat less than was loaded, and the store ends
    with both registrants added but only one seat less: a seat of the
    count is lost for every such overlap.  Where that call throws, both
    are answered 500 "Error registering for event" and the store stays as
    it was. *)
Theorem overlapping_registrations_lose_update s reqA reqB id e :
  store_wf s →
  castObjectId (JStr (params_id reqA)) = Some id →
  castObjectId (JStr (params_id reqB)) = Some id →
  events s !! id = Some e →
  0 < availableSeats e →
  isSafeInteger (availableSeats e) = true →
  ObjectId_isValid (field reqA "userId") = true →
  ObjectId_isValid (field reqB "userId") = true →
  let c := exec [0; 1; 0; 1]%nat
             (s, [handle JWT_SECRET POST_events_id_register reqA;
                  handle JWT_SECRET POST_events_id_register reqB]) in
  (∀ a b,
     ObjectId_new (field reqA "userId") = Some a →
     ObjectId_new (field reqB "userId") = Some b →
     c.2 = [respond 200 (MessageEvent "Registration successful"
                           (after_save (booked e a)));
            respond 200 (MessageEvent "Registration successful"
                           (after_save (booked e b)))]
     ∧ ∃ e', events c.1 !! id = Some e'
         ∧ availableSeats e' = availableSeats e - 1
         ∧ registrations e' = (registrations e ++ [a; b])%list)
  ∧ (ObjectId_new (field reqA "userId") = None →
     ObjectId_new (field reqB "userId") = None →
     c = (s, [respond 500 (Message "Error registering for event");
              respond 500 (Message "Error registering for event")])).
Proof.
  intros Hwf HidA HidB He Hseats _ HvA HvB c. split.
  - intros a b HnA HnB.
    destruct (step_register_load s reqA id e a HidA He Hseats HvA HnA)
      as (kA & HA & HkA).
    destruct (step_register_load s reqB id e b HidB He Hseats HvB HnB)
      as (kB & HB & HkB).
    pose proof (Hwf _ _ He) as Hk.
    assert (c = (set_events (set_events s (<[id := saved (booked e a) [a] e]> (events s)))
                   (<[id := saved (booked e b) [b] (saved (booked e a) [a] e)]>
                      (<[id := saved (booked e a) [a] e]> (events s))),
                 [respond 200 (MessageEvent "Registration successful"
                                 (after_save (booked e a)));
                  respond 200 (MessageEvent "Registration successful"
                                 (after_save (booked e b)))]))
      as ->.
    { subst c.
      change (exec [0; 1; 0; 1]%nat ?c)
        with (step_at 1 (step_at 0 (step_at 1 (step_at 0 c)))).
      rewrite step_at_first, HA. cbn [fst snd].
      rewrite step_at_second, HB. cbn [fst snd].
      rewrite step_at_first. cbn [step].
      unfold do_Event_save at 1 2, validate.
      cbn [availableSeats booked set_availableSeats push_registration e_id].
      destruct (Z.leb_spec 0 (availableSeats e - 1)) as [_|]; [|lia].
      rewrite Hk, He. cbn [fst snd]. rewrite HkA.
      rewrite step_at_second. cbn [step].
      unfold do_Event_save, validate.
      cbn [availableSeats booked set_availableSeats push_registration e_id events
           set_events].
      destruct (Z.leb_spec 0 (availableSeats e - 1)) as [_|]; [|lia].
      rewrite Hk, lookup_insert_eq. cbn [fst snd]. by rewrite HkB. }
    cbn [fst snd events set_events]. split; [done|].
    eexists. rewrite lookup_insert_eq. split; [done|]. cbn.
    split; [done|]. by rewrite <- app_assoc.
  - intros HnA HnB. subst c.
    change (exec [0; 1; 0; 1]%nat ?c)
      with (step_at 1 (step_at 0 (step_at 1 (step_at 0 c)))).
    rewrite step_at_first, (step_register_thrown s reqA id e) by done. cbn [fst snd].
    rewrite step_at_second, (step_register_thrown s reqB id e) by done. cbn [fst snd].
    rewrite step_at_first. cbn [step respond fst snd].
    by rewrite step_at_second.
Qed.

End Further.

(** * Properties of the handlers that create documents *)

Section Created.

Context `{Hashing}.

Variable JWT_SECRET : option string.

Variable castDate : json → option Z.

(** ** Signing up *)

Lemma do_User_save_cases doc s :
  do_User_save doc s = (s, Rejected DuplicateKeyError)
  ∨ (do_User_save doc s = (set_users s (users s ++ [doc])%list, Fulfilled ())
     ∧ u_email doc ∉ map u_email (users s)).
Proof.
  unfold do_User_save.
  destruct (existsb _ (users s)) eqn:Hex; [by left|]. right. split; [done|].
  intros Hin. apply list_elem_of_fmap in Hin as (u & Hu & Hin).
  apply list_elem_of_In in Hin.
  assert (existsb (λ u0, (String.eqb (u_email u0) (u_email doc))
                         || (String.eqb (u_id u0) (u_id doc))) (users s) = true)
    as Htrue; [|congruence].
  apply existsb_exists. exists u. split; [done|].
  by rewrite Hu, String.eqb_refl.
Qed.

(** What a signup does: nothing to the store, or it adds one user. *)
Lemma signup_cases req s :
  ((signup req s).1 = s ∧ status (signup req s).2 ≠ 201)
  ∨ ∃ e h user,
      do_User_findOne (field req "email") s = Fulfilled None
      ∧ required (field req "email") = Some e
      ∧ bcrypt_hash (field req "password") = Some h
      ∧ user = {| u_id := fresh_id req; u_name := u_name user; u_email := e;
                  u_number := u_number user; u_password := h |}
      ∧ (e ∉ map u_email (users s))
      ∧ signup req s
        = (set_users s (users s ++ [user])%list,
           answer 201 "User registered successfully").
Proof.
  unfold signup.
  destruct (do_User_findOne (field req "email") s) as [[existing|]|] eqn:Hfind;
    [left; by split| |left; by split].
  destruct (bcrypt_hash (field req "password")) as [h|] eqn:Hh; [|left; by split].
  destruct (new_User req h) as [user|] eqn:Hnew; [|left; by split].
  destruct (do_User_save_cases user s) as [->|[-> Hfresh]]; [left; by split|].
  right. unfold new_User in Hnew.
  repeat (apply bind_Some in Hnew as (? & ? & Hnew)).
  injection Hnew as <-. cbn in *.
  eexists _, h, _. repeat split; try done.
Qed.

(** X13.  No signup makes two stored users share an email, whatever the
    requests: if the emails are pairwise distinct before, they are after
    every signup, and after any sequence of signups.  A signup changes no
    stored user, event or blog; it adds at most one user, and none unless
    it answers 201. *)
Theorem signup_keeps_emails_unique s :
  emails_unique s →
  (∀ req,
     emails_unique (signup req s).1
     ∧ (∃ added, users (signup req s).1 = (users s ++ added)%list
                 ∧ (length added <= 1)%nat)
     ∧ blogs (signup req s).1 = blogs s
     ∧ events (signup req s).1 = events s
     ∧ (status (signup req s).2 ≠ 201 → (signup req s).1 = s))
  ∧ (∀ reqs, emails_unique (fold_left (λ s' req, (signup req s').1) reqs s)).
Proof.
  intros Hu.
  assert (∀ s0 req, emails_unique s0 → emails_unique (signup req s0).1) as Hstep.
  { intros s0 req Hu0.
    destruct (signup_cases req s0)
      as [[-> _]|(e & h & user & _ & _ & _ & Huser & Hfresh & ->)]; [done|].
    unfold emails_unique. cbn [fst users set_users].
    rewrite map_app. cbn [map]. apply NoDup_app. split; [done|]. split.
    - intros x Hx Hx'. apply list_elem_of_singleton in Hx'. subst x.
      rewrite Huser in Hx. by cbn in Hx.
    - apply NoDup_singleton. }
  split.
  - intros req. split; [by apply Hstep|].
    destruct (signup_cases req s)
      as [[Hs Hst]|(e & h & user & _ & _ & _ & _ & _ & Heq)].
    + rewrite Hs. split; [exists []; split; [by rewrite app_nil_r | cbn; lia]|].
      done.
    + rewrite Heq. cbn [fst snd users blogs events set_users answer status].
      split; [exists [user]; split; [done | cbn; lia]|]. done.
  - intros reqs. revert s Hu. induction reqs as [|req reqs IH]; intros s Hu; [done|].
    cbn [fold_left]. apply IH. by apply Hstep.
Qed.

(** X14.  A signup with the email of a stored user is answered 400 "Email
    already registered" and stores nothing. *)
Theorem signup_refuses_known_email s req user :
  user ∈ users s →
  field req "email" ≠ JUndefined →
  field req "email" ≠ JNull →
  castString (field req "email") = Some (u_email user) →
  signup req s = (s, answer 400 "Email already registered").
Proof.
  intros Hin Hu Hn Hcast. unfold signup, do_User_findOne. rewrite Hcast.
  destruct (List.find (λ u, String.eqb (u_email u) (u_email user)) (users s))
    as [found|] eqn:Hfind.
  - by destruct (field req "email").
  - apply list_elem_of_In in Hin.
    pose proof (find_none _ _ Hfind user Hin) as Hno. cbn in Hno.
    by rewrite String.eqb_refl in Hno.
Qed.

(** X15.  After a signup that answered 201, a login with the same email
    and password is answered 200, with a token for the [_id] the new user
    was given. *)
Theorem signup_then_login s req req' :
  status (signup req s).2 = 201 →
  field req' "email" = field req "email" →
  field req' "password" = field req "password" →
  result (run (handle JWT_SECRET POST_login req') (signup req s).1)
  = Responded {| status := 200;
                 sent := MessageToken "Login successful"
                           (jwt_sign (fresh_id req) (SECRET_KEY JWT_SECRET)
                              (clock req')) |}.
Proof.
  intros Hst He Hp.
  destruct (signup_cases req s)
    as [[_ Hno]|(e & h & user & Hfind & Hreq & Hh & Huser & Hfresh & Heq)]; [done|].
  rewrite Heq. cbn [fst]. rewrite run_handle_login.
  unfold login, run. rewrite He, Hp.
  assert (do_User_findOne (field req "email") (set_users s (users s ++ [user])%list)
          = Fulfilled (Some user)) as ->.
  { unfold do_User_findOne in *. unfold required in Hreq.
    destruct (field req "email") as [| |bo|n|em|items|ops]; try done.
    all: destruct (castString _) as [a|]; [|done].
    all: case_decide; [done|]; injection Hreq as ->.
    all: injection Hfind as Hfind; cbn [users set_users].
    all: assert (∀ l, List.find (λ u, String.eqb (u_email u) e) l = None →
                 List.find (λ u, String.eqb (u_email u) e) (l ++ [user])
                 = Some user) as Happ
      by (induction l as [|u l IHl]; cbn;
          [rewrite Huser; cbn; by rewrite String.eqb_refl
          |destruct (String.eqb (u_email u) e); [done|apply IHl]]).
    all: by rewrite (Happ _ Hfind). }
  rewrite Huser. cbn [u_password u_id].
  by rewrite (bcrypt_hash_compare _ _ Hh).
Qed.

(** ** Writing a blog *)

Lemma create_blog_cases req s :
  (∃ r, create_blog req s = (s, Blog_refused r))
  ∨ ∃ b,
      new_Blog req = Some b
      ∧ falsy (field req "title") = false
      ∧ falsy (field req "content") = false
      ∧ blogs s !! b_id b = None
      ∧ create_blog req s = (set_blogs s (<[b_id b := b]> (blogs s)), Blog_created b).
Proof.
  unfold create_blog.
  destruct (falsy (field req "title")); [left; by eexists|].
  destruct (falsy (field req "content")); [left; by eexists|]. cbn [orb].
  destruct (new_Blog req) as [b|]; [|left; by eexists].
  unfold do_Blog_save.
  destruct (blogs s !! b_id b) as [old|] eqn:Hold; [left; by eexists|].
  right. by exists b.
Qed.

Lemma new_Blog_fields req b :
  new_Blog req = Some b →
  b_id b = fresh_id req
  ∧ ∀ u, userId req = Some u → castObjectId (JStr u) = b_author b ∧ is_Some (b_author b).
Proof.
  unfold new_Blog. intros Hn.
  repeat (apply bind_Some in Hn as (? & ? & Hn)).
  injection Hn as <-. cbn. split; [done|].
  intros u Hu.
  match goal with Hm : match userId req with _ => _ end = Some _ |- _ =>
    rewrite Hu in Hm; apply fmap_Some in Hm as (a & Hcast & ->) end.
  by rewrite Hcast.
Qed.

Lemma post_blogs_refused req s r :
  authenticate JWT_SECRET req = Done (Responded r) →
  post_blogs JWT_SECRET req s = (s, Blog_refused r).
Proof. intros Ha. unfold post_blogs. by rewrite Ha. Qed.

Lemma post_blogs_passed req s req' :
  authenticate JWT_SECRET req = Done (CalledNext req') →
  post_blogs JWT_SECRET req s = create_blog req' s.
Proof. intros Ha. unfold post_blogs. by rewrite Ha. Qed.


(** X16.  [POST /api/blogs] stores a blog only for a request that passes
    [authenticate] and whose [title] and [content] are both truthy; the
    blog is stored under a new [_id] and its author is the identity of the
    token, never a value of the body.  A refused request stores nothing,
    and no request touches users, events or the blogs already stored. *)
Theorem post_blogs_stores_for_token_identity s req :
  users (post_blogs JWT_SECRET req s).1 = users s
  ∧ events (post_blogs JWT_SECRET req s).1 = events s
  ∧ (∀ r, (post_blogs JWT_SECRET req s).2 = Blog_refused r →
          (post_blogs JWT_SECRET req s).1 = s)
  ∧ (∀ b, (post_blogs JWT_SECRET req s).2 = Blog_created b →
          falsy (field req "title") = false
          ∧ falsy (field req "content") = false
          ∧ b_id b = fresh_id req
          ∧ blogs s !! fresh_id req = None
          ∧ blogs (post_blogs JWT_SECRET req s).1 = <[fresh_id req := b]> (blogs s)
          ∧ ∃ scheme c rest,
              authorization req
              = Some (scheme :: Jwt c (HS256 (SECRET_KEY JWT_SECRET) c) :: rest)
              ∧ (∀ e, exp c = Some e → clock req < e)
              ∧ castObjectId (JStr (c_userId c)) = b_author b
              ∧ is_Some (b_author b)).
Proof.
  destruct (authenticate_cases JWT_SECRET req)
    as [(r & Hr & _)|(scheme & c & rest & Ha & He & Hpass)].
  - rewrite (post_blogs_refused req s r Hr). cbn [fst snd]. by repeat split.
  - rewrite (post_blogs_passed req s _ Hpass).
    destruct (create_blog_cases (set_userId req (c_userId c)) s)
      as [[r ->]|(b & Hnew & Ht & Hc & Hfresh & ->)].
    + cbn [fst snd]. by repeat split.
    + destruct (new_Blog_fields _ _ Hnew) as [Hid Hau].
      destruct (Hau (c_userId c) eq_refl) as [Hcast Hsome].
      cbn [fst snd users events blogs set_blogs].
      split; [done|]. split; [done|]. split; [done|].
      intros b' [= <-]. rewrite Hid in *. cbn [fresh_id set_userId] in *.
      repeat (split; [done|]). by exists scheme, c, rest.
Qed.



(** ** Jobs and appointments *)

(** X18.  [POST /api/jobs] adds a job only when [title], [company],
    [location] and [description] are all truthy; the job added has a type
    of the [enum], "full-time" when the request gives none, so that every
    stored job keeps a type of the [enum].  A refused request adds
    nothing; the jobs already stored are never changed. *)
Theorem add_job_keeps_types req jobs :
  (Forall (λ j, j_type j ∈ job_types) jobs →
   Forall (λ j, j_type j ∈ job_types) (add_job req jobs).1)
  ∧ (∀ r, (add_job req jobs).2 = Job_refused r → (add_job req jobs).1 = jobs)
  ∧ (∀ m job,
       (add_job req jobs).2 = Job_added m job →
       (add_job req jobs).1 = (jobs ++ [job])%list
       ∧ falsy (field req "title") = false
       ∧ falsy (field req "company") = false
       ∧ falsy (field req "location") = false
       ∧ falsy (field req "description") = false
       ∧ j_id job = fresh_id req
       ∧ j_type job ∈ job_types
       ∧ (falsy (field req "type") = true → j_type job = "full-time")).
Proof.
  unfold add_job.
  destruct (falsy (field req "title")); [by repeat split|].
  destruct (falsy (field req "company")); [by repeat split|].
  destruct (falsy (field req "location")); [by repeat split|].
  destruct (falsy (field req "description")); [by repeat split|]. cbn [orb].
  destruct (new_Job req) as [job|] eqn:Hnew; [|by repeat split].
  cbn [fst snd].
  assert (j_id job = fresh_id req ∧ j_type job ∈ job_types
          ∧ (falsy (field req "type") = true → j_type job = "full-time"))
    as (Hid & Hty & Hdef).
  { unfold new_Job in Hnew.
    repeat (apply bind_Some in Hnew as (? & ? & Hnew)).
    injection Hnew as <-. cbn. split; [done|]. split; [done|].
    intros Hf. match goal with Ht : (if falsy _ then _ else _) = Some _ |- _ =>
      rewrite Hf in Ht; by injection Ht end. }
  split; [|split; [done|]].
  - intros Hall. apply Forall_app. split; [done|]. by apply Forall_singleton.
  - intros m job' [= <- <-]. by repeat split.
Qed.

(** X19.  [POST /api/appointments] adds an appointment only when [name],
    [email], [phone], [date] and [time] are all truthy; the appointment
    added has status "pending" and a counselor type of the [enum],
    "psychologist" when the request gives none; the answer repeats its
    [_id], name, date, time and counselor type.  A refused request adds
    nothing; the appointments already stored are never changed. *)
Theorem create_appointment_pending req l :
  (Forall (λ a, a_status a = "pending" ∧ a_counselorType a ∈ counselor_types) l →
   Forall (λ a, a_status a = "pending" ∧ a_counselorType a ∈ counselor_types)
     (create_appointment castDate req l).1)
  ∧ (∀ r, (create_appointment castDate req l).2 = Appointment_refused r →
          (create_appointment castDate req l).1 = l)
  ∧ (∀ m sum,
       (create_appointment castDate req l).2 = Appointment_scheduled m sum →
       ∃ a,
         (create_appointment castDate req l).1 = (l ++ [a])%list
         ∧ falsy (field req "name") = false
         ∧ falsy (field req "email") = false
         ∧ falsy (field req "phone") = false
         ∧ falsy (field req "date") = false
         ∧ falsy (field req "time") = false
         ∧ a_id a = fresh_id req
         ∧ a_status a = "pending"
         ∧ a_counselorType a ∈ counselor_types
         ∧ castDate (field req "date") = Some (a_date a)
         ∧ (falsy (field req "counselorType") = true →
            a_counselorType a = "psychologist")
         ∧ sum = {| ap_id := a_id a; ap_name := a_name a; ap_date := a_date a;
                    ap_time := a_time a; ap_counselorType := a_counselorType a |}).
Proof.
  unfold create_appointment.
  destruct (falsy (field req "name")); [by repeat split|].
  destruct (falsy (field req "email")); [by repeat split|].
  destruct (falsy (field req "phone")); [by repeat split|].
  destruct (falsy (field req "date")); [by repeat split|].
  destruct (falsy (field req "time")); [by repeat split|]. cbn [orb].
  destruct (new_Appointment castDate req) as [a|] eqn:Hnew; [|by repeat split].
  cbn [fst snd].
  assert (a_id a = fresh_id req ∧ a_status a = "pending"
          ∧ a_counselorType a ∈ counselor_types
          ∧ castDate (field req "date") = Some (a_date a)
          ∧ (falsy (field req "counselorType") = true →
             a_counselorType a = "psychologist"))
    as (Hid & Hst & Hty & Hdate & Hdef).
  { unfold new_Appointment in Hnew.
    repeat (apply bind_Some in Hnew as (? & ? & Hnew)).
    injection Hnew as <-. cbn. repeat (split; [done|]).
    intros Hf. match goal with Ht : (if falsy _ then _ else _) = Some _ |- _ =>
      rewrite Hf in Ht; by injection Ht end. }
  split; [|split; [done|]].
  - intros Hall. apply Forall_app. split; [done|]. by apply Forall_singleton.
  - intros m sum [= <- <-]. exists a. by repeat split.
Qed.

End Created.

(** ** The further properties on the sample data *)


Lemma authenticate_missing_token_witness :
  run (dispatch [authenticate None; delete_blog]
         {| params_id := blog_id;
            authorization := Some [jwt_sign bob (SECRET_KEY None) 0];
            body := ∅; userId := None; clock := 60; fresh_id := "" |}) members
  = (members, [],
     Responded {| status := 401; sent := Message "Authentication required" |}).
Proof.
  apply (authenticate_missing_token None [delete_blog]).
  right. left. by eexists.
Defined.

Lemma default_key_accepts_forged_token_witness :
  authenticate None
    {| params_id := blog_id;
       authorization :=
         Some [Text "Bearer";
               Jwt {| c_userId := bob; iat := 0; exp := None |}
                   (HS256 "your-secret-key" {| c_userId := bob; iat := 0; exp := None |})];
       body := ∅; userId := None; clock := 60; fresh_id := "" |}
  = Done (CalledNext
            (set_userId
               {| params_id := blog_id;
                  authorization :=
                    Some [Text "Bearer";
                          Jwt {| c_userId := bob; iat := 0; exp := None |}
                              (HS256 "your-secret-key"
                                 {| c_userId := bob; iat := 0; exp := None |})];
                  body := ∅; userId := None; clock := 60; fresh_id := "" |} bob)).
Proof.
  apply (default_key_accepts_forged_token None _ (Text "Bearer")
           {| c_userId := bob; iat := 0; exp := None |} []).
  - by left.
  - reflexivity.
  - intros e [=].
Defined.

Lemma delete_by_author_witness :
  let req := delete_request blog_id (jwt_sign bob (SECRET_KEY None) 0) 60 in
  result (run (handle None DELETE_blogs_id req) members)
  = Responded {| status := 200; sent := Message "Blog deleted" |}
  ∧ blogs (final_store (run (handle None DELETE_blogs_id req) members))
    = delete blog_id (blogs members).
Proof.
  intros req.
  destruct (delete_by_author None members req (Text "Bearer")
              {| c_userId := bob; iat := 0; exp := Some 3600 |} [] blog_id
              {| b_id := blog_id; b_title := "Hello"; b_content := "First post";
                 b_image := None; b_author := Some bob |} bob)
    as (Hr & Hb & _).
  - reflexivity.
  - intros e [= <-]. reflexivity.
  - reflexivity.
  - by vm_compute.
  - reflexivity.
  - reflexivity.
  - by split.
Defined.


Lemma login_only_for_stored_user_witness :
  (∃ user,
     user ∈ users members
     ∧ castString (field (login_request "alice@example.org" "correct horse" 10) "email")
       = Some (u_email user)
     ∧ u_id user = alice)
  ∧ ∃ user,
      user ∈ users members
      ∧ castString (field (operator_login_request "correct horse" 10) "email") = None
      ∧ String.ltb "" (u_email user) = true
      ∧ result (run (handle None POST_login (operator_login_request "correct horse" 10))
                  members)
        = Responded {| status := 200;
                       sent := MessageToken "Login successful"
                                 (jwt_sign (u_id user) (SECRET_KEY None) 10) |}.
Proof.
  split.
  - destruct (login_only_for_stored_user None members
                (login_request "alice@example.org" "correct horse" 10))
      as (_ & Hok).
    destruct Hok as (user & Hin & [Hmail|[(ops & sat & Hobj & _)|(l & a & Hobj & _)]]
                     & _ & Hres);
      [by vm_compute| |discriminate Hobj..].
    exists user. split; [done|]. split; [done|].
    vm_compute in Hres. by injection Hres.
  - destruct (login_only_for_stored_user None members
                (operator_login_request "correct horse" 10))
      as (_ & Hok).
    destruct Hok as (user & Hin
                     & [Hmail|[(ops & sat & Hobj & Hcast & Hq & Hsat)|(l & a & Hobj & _)]]
                     & _ & Hres);
      [by vm_compute|discriminate Hmail| |discriminate Hobj].
    exists user. split; [done|]. split; [reflexivity|].
    injection Hobj as <-. injection Hq as <-. split; [exact Hsat | exact Hres].
Defined.

Lemma create_event_stores_fresh_event_witness :
  ∃ doc,
    events (final_store (run (handle None POST_events (create_request 3)) empty_store))
    = <[workshop_id := doc]> (events empty_store)
    ∧ registrations doc = []
    ∧ 0 <= availableSeats doc.
Proof.
  destruct (create_event_stores_fresh_event None empty_store (create_request 3))
    as (_ & _ & _ & Hok).
  destruct Hok as (doc & _ & _ & Hregs & Hpos & _ & _ & _ & Hev & _); [by vm_compute|].
  by exists doc.
Defined.

Lemma create_event_refuses_negative_seats_witness :
  result (run (handle None POST_events (create_request (-1))) empty_store)
  = Responded {| status := 500; sent := Message "Error creating event" |}
  ∧ final_store (run (handle None POST_events (create_request (-1))) empty_store)
    = empty_store.
Proof.
  apply (create_event_refuses_negative_seats None empty_store (create_request (-1)) (-1)).
  - reflexivity.
  - lia.
Defined.

Lemma registration_not_confirmed_no_effect_witness :
  final_store (run (handle None POST_events_id_register
                      (register_request workshop_id (JStr alice))) (created 0))
  = created 0.
Proof.
  apply (registration_not_confirmed_no_effect None (created 0)
           (register_request workshop_id (JStr alice))).
  by vm_compute.
Defined.

Lemma registrations_sell_out_witness :
  successes_on workshop_id
    (run_seq (map (handle None POST_events_id_register)
                [register_request workshop_id (JStr alice);
                 register_request workshop_id (JStr bob);
                 register_request workshop_id (JStr carol)]) (created 2)).2
  = 2%nat
  ∧ successes_on workshop_id
      (@run_seq class_library
         (map (@handle class_library None POST_events_id_register)
            [register_request workshop_id (JStr alice);
             register_request workshop_id (JStr bob);
             register_request workshop_id (JStr carol)]) (created 2)).2
    = 0%nat.
Proof.
  split.
  - destruct (registrations_sell_out None
                [register_request workshop_id (JStr alice);
                 register_request workshop_id (JStr bob);
                 register_request workshop_id (JStr carol)]
                (created 2) workshop_id (workshop 2))
      as [Hsold _].
    + apply (bool_decide_unpack _). by vm_compute.
    + by vm_compute.
    + by vm_compute.
    + reflexivity.
    + destruct Hsold as (_ & _ & _ & Hcount & _); [|exact Hcount].
      apply Forall_cons; split; [split; [reflexivity|split; [reflexivity|by eexists]]|].
      apply Forall_cons; split; [split; [reflexivity|split; [reflexivity|by eexists]]|].
      apply Forall_cons; split; [split; [reflexivity|split; [reflexivity|by eexists]]|].
      apply Forall_nil_2.
  - destruct (@registrations_sell_out class_library None
                [register_request workshop_id (JStr alice);
                 register_request workshop_id (JStr bob);
                 register_request workshop_id (JStr carol)]
                (created 2) workshop_id (workshop 2))
      as [_ Hthrown].
    + apply (bool_decide_unpack _). by vm_compute.
    + by vm_compute.
    + by vm_compute.
    + reflexivity.
    + destruct Hthrown as (_ & _ & _ & Hcount); [|by vm_compute|exact Hcount].
      apply Forall_cons; split; [split; [reflexivity|split; reflexivity]|].
      apply Forall_cons; split; [split; [reflexivity|split; reflexivity]|].
      apply Forall_cons; split; [split; [reflexivity|split; reflexivity]|].
      apply Forall_nil_2.
Defined.

Lemma exec_events_only_grow_witness :
  ∃ e',
    events (exec [0; 1; 0; 1]%nat
              (created 1,
               [handle None POST_events_id_register
                  (register_request workshop_id (JStr alice));
                handle None POST_events_id_register
                  (register_request workshop_id (JStr bob))])).1 !! workshop_id
    = Some e'
    ∧ grown (workshop 1) e'.
Proof.
  apply (exec_events_only_grow [0; 1; 0; 1]%nat (created 1)).
  by vm_compute.
Defined.

Lemma overlapping_registrations_lose_update_witness :
  (∃ e',
     events (exec [0; 1; 0; 1]%nat
               (created 2,
                [handle None POST_events_id_register
                   (register_request workshop_id (JStr alice));
                 handle None POST_events_id_register
                   (register_request workshop_id (JStr bob))])).1 !! workshop_id
     = Some e'
     ∧ availableSeats e' = 1
     ∧ registrations e' = [alice; bob])
  ∧ (@exec class_library [0; 1; 0; 1]%nat
       (created 2,
        [@handle class_library None POST_events_id_register
           (register_request workshop_id (JStr alice));
         @handle class_library None POST_events_id_register
           (register_request workshop_id (JStr bob))])).1
    = created 2.
Proof.
  split.
  - refine (proj2 (proj1 (overlapping_registrations_lose_update None (created 2)
              (register_request workshop_id (JStr alice))
              (register_request workshop_id (JStr bob))
              workshop_id (workshop 2) _ _ _ _ _ _ _ _) alice bob _ _)).
    + apply (bool_decide_unpack _). by vm_compute.
    + reflexivity.
    + reflexivity.
    + by vm_compute.
    + reflexivity.
    + reflexivity.
    + reflexivity.
    + reflexivity.
    + reflexivity.
    + reflexivity.
  - refine (f_equal fst
              (proj2 (@overlapping_registrations_lose_update class_library None
                        (created 2)
                        (register_request workshop_id (JStr alice))
                        (register_request workshop_id (JStr bob))
                        workshop_id (workshop 2) _ _ _ _ _ _ _ _) _ _)).
    + apply (bool_decide_unpack _). by vm_compute.
    + reflexivity.
    + reflexivity.
    + by vm_compute.
    + reflexivity.
    + reflexivity.
    + reflexivity.
    + reflexivity.
    + reflexivity.
    + reflexivity.
Defined.

Lemma signup_keeps_emails_unique_witness :
  emails_unique
    (signup (signup_request carol "Carol" "alice@example.org" "3" "pw") members).1
  ∧ emails_unique
      (signup (signup_request carol "Carol" "carol@example.org" "3" "pw") members).1.
Proof.
  assert (emails_unique members) as Hu.
  { apply (bool_decide_unpack _). by vm_compute. }
  split; apply (proj1 (signup_keeps_emails_unique members Hu)).
Defined.

Lemma signup_refuses_known_email_witness :
  signup (signup_request carol "Carol" "alice@example.org" "3" "pw") members
  = (members, answer 400 "Email already registered").
Proof.
  apply (signup_refuses_known_email members _
           {| u_id := alice; u_name := "Alice"; u_email := "alice@example.org";
              u_number := "1"; u_password := toy_hash "correct horse" |}).
  - apply list_elem_of_here.
  - discriminate.
  - discriminate.
  - reflexivity.
Defined.

Lemma signup_then_login_witness :
  result (run (handle None POST_login (login_request "carol@example.org" "pw" 100))
            (signup (signup_request carol "Carol" "carol@example.org" "3" "pw")
               members).1)
  = Responded {| status := 200;
                 sent := MessageToken "Login successful"
                           (jwt_sign carol (SECRET_KEY None) 100) |}.
Proof.
  apply (signup_then_login None members
           (signup_request carol "Carol" "carol@example.org" "3" "pw")
           (login_request "carol@example.org" "pw" 100)).
  - by vm_compute.
  - reflexivity.
  - reflexivity.
Defined.

Lemma post_blogs_stores_for_token_identity_witness :
  ∃ b,
    (post_blogs None
       (blog_request carol "Title" "Text" (jwt_sign alice (SECRET_KEY None) 0) 60)
       members).2 = Blog_created b
    ∧ b_author b = Some alice
    ∧ b_id b = carol.
Proof.
  pose proof (post_blogs_stores_for_token_identity None members
                (blog_request carol "Title" "Text" (jwt_sign alice (SECRET_KEY None) 0) 60))
    as (_ & _ & _ & Hok).
  eexists. split; [by vm_compute|].
  split; [reflexivity|].
  refine (proj1 (proj2 (proj2 (Hok _ _)))). by vm_compute.
Defined.


Lemma add_job_keeps_types_witness :
  ∃ job,
    (add_job (job_request carol "Nurse" "Clinic" "Town" "Night shifts") []).1 = [job]
    ∧ j_type job = "full-time".
Proof.
  destruct (add_job_keeps_types (job_request carol "Nurse" "Clinic" "Town" "Night shifts")
              []) as (_ & _ & Hadded).
  destruct (Hadded "Job added successfully"
              {| j_id := carol; j_title := "Nurse"; j_company := "Clinic";
                 j_location := "Town"; j_description := "Night shifts";
                 j_type := "full-time" |}) as (Hl & _ & _ & _ & _ & _ & _ & Hdef).
  - by vm_compute.
  - eexists. split; [exact Hl|]. apply Hdef. reflexivity.
Defined.

Lemma create_appointment_pending_witness :
  ∃ a,
    (create_appointment number_date
       (appointment_request carol "Dana" "dana@example.org" "5" 1750000000000 "09:30")
       []).1 = [a]
    ∧ a_status a = "pending"
    ∧ a_counselorType a = "psychologist".
Proof.
  destruct (create_appointment_pending number_date
              (appointment_request carol "Dana" "dana@example.org" "5"
                 1750000000000 "09:30") []) as (_ & _ & Hadded).
  destruct (Hadded "Appointment scheduled successfully"
              {| ap_id := carol; ap_name := "Dana"; ap_date := 1750000000000;
                 ap_time := "09:30"; ap_counselorType := "psychologist" |})
    as (a & Hl & _ & _ & _ & _ & _ & _ & Hst & _ & _ & Hdef & _).
  - by vm_compute.
  - exists a. split; [exact Hl|]. split; [exact Hst|]. apply Hdef. reflexivity.
Defined.
